(** * Landscaping contractor app: the job / quote / invoice core

    A shallow embedding of the request handlers of
    [src/landscaping_app/app.py] (FastAPI over SQLite) and the properties
    of the quote workflow, the job lifecycle and the billing
    reconciliation.

    Every POST handler of the application is a function from the database
    to a response and a new database.  The GET handlers only read and are
    not part of the model. *)

From Stdlib Require Import ZArith List String Ascii Bool Lia.
From Stdlib Require Import DecimalString QArith.
Import ListNotations.

Local Open Scope string_scope.
Local Open Scope list_scope.
Local Open Scope Z_scope.

(** ** What the handlers take from Python and SQLite

    The handlers compute with Python [float]s (SQLite [REAL]), with
    [str.strip] and with [datetime].  None of the three is defined in the
    repository, so the model takes them as an interface.  [real] stands for
    the floats SQLite stores as non-NULL [REAL] values.  The three laws are
    all that the proofs use of the comparison operators, and IEEE floats
    satisfy them. *)
Class Runtime := {
  real : Type;
  real_zero : real;                         (* 0.0 *)
  real_add : real -> real -> real;          (* a + b *)
  real_ge : real -> real -> bool;           (* a >= b *)
  real_lt : real -> real -> bool;           (* a < b *)
  real_truthy : real -> bool;               (* bool(a), that is a != 0 *)
  real_lt_not_ge : forall a b, real_lt a b = true -> real_ge a b = false;
  real_falsy_ge : forall t a,
      real_truthy a = false -> real_ge t a = real_ge t real_zero;
  real_falsy_lt : forall t a,
      real_truthy a = false -> real_lt t a = real_lt t real_zero;
  strip : string -> string;                 (* str.strip() *)
  datetime : Type;
  fromisoformat : string -> datetime + string;  (* inr msg: ValueError(msg) *)
  isoformat : datetime -> string;           (* dt.isoformat() *)
  strftime_seconds : datetime -> string     (* dt.strftime("%Y-%m-%dT%H:%M:%S") *)
}.

(** [str(n)] of a Python [int], as f-strings print it. *)
Definition str_int (n : Z) : string := NilZero.string_of_int (Z.to_int n).

(** [str(x)] of an [Optional[int]] column value: [None] prints as "None". *)
Definition str_opt_int (n : option Z) : string :=
  match n with
  | Some k => str_int k
  | None => "None"
  end.

(** ** Rows of the eight tables (the [CREATE TABLE] statements of [init_db]) *)

Module Client.
Record t := mk {
  id : Z;
  name : string;
  address : string;
  phone : string;
  email : string
}.
End Client.

Module Crew.
Record t := mk { id : Z; name : string }.
End Crew.

Module Member.
Record t := mk { id : Z; name : string }.
End Member.

Module Job.
Section Row.
Context {RT : Runtime}.

Record t := mk {
  id : Z;
  client_id : Z;
  description : string;
  scheduled_date : string;
  crew : option string;
  crew_id : option Z;
  estimated_hours : option real;
  estimated_cost : option real;
  actual_hours : option real;
  actual_cost : option real;
  status : string;
  invoice_sent_at : option string;
  invoice_status : option string;
  paid_at : option string;
  on_my_way_sent_at : option string
}.

(** [UPDATE jobs SET status = ?] *)
Definition set_status (st : string) (j : t) : t :=
  mk (id j) (client_id j) (description j) (scheduled_date j) (crew j)
     (crew_id j) (estimated_hours j) (estimated_cost j) (actual_hours j)
     (actual_cost j) st (invoice_sent_at j) (invoice_status j)
     (paid_at j) (on_my_way_sent_at j).

(** [UPDATE jobs SET status = ?, actual_hours = ?, actual_cost = ?] *)
Definition set_completion (st : string) (h c : real) (j : t) : t :=
  mk (id j) (client_id j) (description j) (scheduled_date j) (crew j)
     (crew_id j) (estimated_hours j) (estimated_cost j) (Some h)
     (Some c) st (invoice_sent_at j) (invoice_status j)
     (paid_at j) (on_my_way_sent_at j).

(** [UPDATE jobs SET invoice_sent_at = ?, invoice_status = 'Sent'] *)
Definition set_invoice_sent (sent_at : string) (j : t) : t :=
  mk (id j) (client_id j) (description j) (scheduled_date j) (crew j)
     (crew_id j) (estimated_hours j) (estimated_cost j) (actual_hours j)
     (actual_cost j) (status j) (Some sent_at) (Some "Sent")
     (paid_at j) (on_my_way_sent_at j).

(** [UPDATE jobs SET invoice_status = 'Paid', paid_at = ?] *)
Definition set_paid (at_ : string) (j : t) : t :=
  mk (id j) (client_id j) (description j) (scheduled_date j) (crew j)
     (crew_id j) (estimated_hours j) (estimated_cost j) (actual_hours j)
     (actual_cost j) (status j) (invoice_sent_at j) (Some "Paid")
     (Some at_) (on_my_way_sent_at j).

(** [UPDATE jobs SET on_my_way_sent_at = ?] *)
Definition set_on_my_way (at_ : string) (j : t) : t :=
  mk (id j) (client_id j) (description j) (scheduled_date j) (crew j)
     (crew_id j) (estimated_hours j) (estimated_cost j) (actual_hours j)
     (actual_cost j) (status j) (invoice_sent_at j) (invoice_status j)
     (paid_at j) (Some at_).

(** [UPDATE jobs SET crew_id = NULL] *)
Definition clear_crew_id (j : t) : t :=
  mk (id j) (client_id j) (description j) (scheduled_date j) (crew j)
     None (estimated_hours j) (estimated_cost j) (actual_hours j)
     (actual_cost j) (status j) (invoice_sent_at j) (invoice_status j)
     (paid_at j) (on_my_way_sent_at j).

(** [UPDATE jobs SET client_id = ?, description = ?, scheduled_date = ?,
    crew = ?, crew_id = ?, estimated_hours = ?, estimated_cost = ?] *)
Definition set_edit (cl : Z) (d sd cr : string) (cid : option Z)
    (eh ec : real) (j : t) : t :=
  mk (id j) cl d sd (Some cr) cid (Some eh) (Some ec) (actual_hours j)
     (actual_cost j) (status j) (invoice_sent_at j) (invoice_status j)
     (paid_at j) (on_my_way_sent_at j).
End Row.
End Job.

Module Task.
Record t := mk {
  id : Z;
  job_id : Z;
  description : string;
  completed : Z
}.

(** [UPDATE tasks SET completed = ?] *)
Definition set_completed (c : Z) (k : t) : t :=
  mk (id k) (job_id k) (description k) c.
End Task.

Module Quote.
Section Row.
Context {RT : Runtime}.

Record t := mk {
  id : Z;
  client_id : Z;
  description : string;
  estimated_hours : real;
  estimated_cost : real;
  status : string;
  created_at : option string;
  valid_until : option string;
  job_id : option Z
}.

(** [UPDATE quotes SET status = ?] *)
Definition set_status (st : string) (q : t) : t :=
  mk (id q) (client_id q) (description q) (estimated_hours q)
     (estimated_cost q) st (created_at q) (valid_until q) (job_id q).

(** [UPDATE quotes SET status = 'Accepted', job_id = ?] *)
Definition set_accepted (jid : Z) (q : t) : t :=
  mk (id q) (client_id q) (description q) (estimated_hours q)
     (estimated_cost q) "Accepted" (created_at q) (valid_until q)
     (Some jid).
End Row.
End Quote.

Module Payment.
Section Row.
Context {RT : Runtime}.

Record t := mk {
  id : Z;
  job_id : Z;
  amount : real;
  method : string;
  paid_at : string
}.
End Row.
End Payment.

(** ** Tables and the database *)

(** A table with an [INTEGER PRIMARY KEY AUTOINCREMENT]: its rows in
    insertion order and its [sqlite_sequence] entry, the largest rowid ever
    handed out. *)
Record table (A : Type) := mk_table {
  rows : list A;
  seq : Z
}.
Arguments mk_table {A} _ _.
Arguments rows {A} _.
Arguments seq {A} _.

Definition empty_table {A : Type} : table A := mk_table [] 0.

(** The largest of a list of rowids, [None] for no rows. *)
Fixpoint max_rowid (ids : list Z) : option Z :=
  match ids with
  | [] => None
  | i :: rest =>
      match max_rowid rest with
      | None => Some i
      | Some m => Some (Z.max i m)
      end
  end.

(** The rowid AUTOINCREMENT picks: one more than the largest rowid the
    table holds or ever held. *)
Definition next_rowid {A : Type} (key : A -> Z) (t : table A) : Z :=
  match max_rowid (map key (rows t)) with
  | None => Z.max (seq t) 0 + 1
  | Some m => Z.max (seq t) m + 1
  end.

(** [INSERT INTO t ...]: the row is built from its new rowid. *)
Definition insert_row {A : Type} (key : A -> Z) (mk : Z -> A) (t : table A)
  : table A :=
  let i := next_rowid key t in
  mk_table (rows t ++ [mk i]) i.

(** [UPDATE t SET ... WHERE p] *)
Definition update_where {A : Type} (p : A -> bool) (f : A -> A)
    (t : table A) : table A :=
  mk_table (map (fun r => if p r then f r else r) (rows t)) (seq t).

(** [DELETE FROM t WHERE p] *)
Definition delete_where {A : Type} (p : A -> bool) (t : table A) : table A :=
  mk_table (filter (fun r => negb (p r)) (rows t)) (seq t).

(** [SELECT * FROM t WHERE id = ?] with [fetchone()] *)
Definition select_by_id {A : Type} (key : A -> Z) (i : Z) (t : table A)
  : option A :=
  find (fun r => key r =? i) (rows t).


(** What a handler answers.  Every redirect of the application carries
    [status_code=303].  [Uncaught] is an exception no handler catches: the
    [with get_connection()] block rolls the open transaction back and the
    server answers 500. *)
Inductive response : Type :=
| RedirectResponse (url : string)
| HTTPException (status_code : Z) (detail : string)
| Uncaught (exn : string).

(** [INSERT INTO job_members (job_id, member_id)] for each member in turn;
    [None] when a pair violates [PRIMARY KEY (job_id, member_id)]. *)
Fixpoint insert_job_members (jm : list (Z * Z)) (job_id : Z)
    (member_ids : list Z) : option (list (Z * Z)) :=
  match member_ids with
  | [] => Some jm
  | mid :: rest =>
      if existsb (fun p => (fst p =? job_id) && (snd p =? mid)) jm
      then None
      else insert_job_members (jm ++ [(job_id, mid)]) job_id rest
  end.

(** [x in (...)] on strings *)
Definition str_in (x : string) (l : list string) : bool :=
  existsb (String.eqb x) l.

(** [allowed_statuses] of [update_job_status] *)
Definition allowed_statuses : list string :=
  ["Scheduled"; "In progress"; "Completed"].

(** [allowed_methods] of [add_payment] *)
Definition allowed_methods : list string :=
  ["Cash"; "Check"; "Card"; "Other"].

Section Handlers.
Context {RT : Runtime}.

Record store := mk_store {
  clients : table Client.t;
  crews : table Crew.t;
  members : table Member.t;
  jobs : table Job.t;
  tasks : table Task.t;
  quotes : table Quote.t;
  payments : table Payment.t;
  job_members : list (Z * Z)
}.

(** The database [init_db] creates. *)
Definition empty_store : store :=
  mk_store empty_table empty_table empty_table empty_table empty_table
           empty_table empty_table [].

Definition with_clients (t : table Client.t) (s : store) : store :=
  mk_store t (crews s) (members s) (jobs s) (tasks s) (quotes s)
           (payments s) (job_members s).

Definition with_crews (t : table Crew.t) (s : store) : store :=
  mk_store (clients s) t (members s) (jobs s) (tasks s) (quotes s)
           (payments s) (job_members s).

Definition with_members (t : table Member.t) (s : store) : store :=
  mk_store (clients s) (crews s) t (jobs s) (tasks s) (quotes s)
           (payments s) (job_members s).

Definition with_jobs (t : table Job.t) (s : store) : store :=
  mk_store (clients s) (crews s) (members s) t (tasks s) (quotes s)
           (payments s) (job_members s).

Definition with_tasks (t : table Task.t) (s : store) : store :=
  mk_store (clients s) (crews s) (members s) (jobs s) t (quotes s)
           (payments s) (job_members s).

Definition with_quotes (t : table Quote.t) (s : store) : store :=
  mk_store (clients s) (crews s) (members s) (jobs s) (tasks s) t
           (payments s) (job_members s).

Definition with_payments (t : table Payment.t) (s : store) : store :=
  mk_store (clients s) (crews s) (members s) (jobs s) (tasks s) (quotes s)
           t (job_members s).

Definition with_job_members (jm : list (Z * Z)) (s : store) : store :=
  mk_store (clients s) (crews s) (members s) (jobs s) (tasks s) (quotes s)
           (payments s) jm.

(** *** Lookups that raise 404 *)

Definition fetch_client (s : store) (client_id : Z) : response + Client.t :=
  match select_by_id Client.id client_id (clients s) with
  | None => inl (HTTPException 404 "Client not found")
  | Some c => inr c
  end.

Definition fetch_crew (s : store) (crew_id : Z) : response + Crew.t :=
  match select_by_id Crew.id crew_id (crews s) with
  | None => inl (HTTPException 404 "Crew not found")
  | Some c => inr c
  end.

Definition fetch_member (s : store) (member_id : Z) : response + Member.t :=
  match select_by_id Member.id member_id (members s) with
  | None => inl (HTTPException 404 "Member not found")
  | Some m => inr m
  end.

(** [SELECT quotes.*, ... FROM quotes JOIN clients ON quotes.client_id =
    clients.id WHERE quotes.id = ?]: the inner join drops a quote whose
    client row is gone. *)
Definition fetch_quote (s : store) (quote_id : Z) : response + Quote.t :=
  match select_by_id Quote.id quote_id (quotes s) with
  | None => inl (HTTPException 404 "Quote not found")
  | Some q =>
      match select_by_id Client.id (Quote.client_id q) (clients s) with
      | None => inl (HTTPException 404 "Quote not found")
      | Some _ => inr q
      end
  end.

(** [SELECT jobs.*, ... FROM jobs JOIN clients ON jobs.client_id =
    clients.id LEFT JOIN crews ... WHERE jobs.id = ?]: the inner join drops
    a job whose client row does not exist, the left join keeps a job
    without crew. *)
Definition fetch_job (s : store) (job_id : Z) : response + Job.t :=
  match select_by_id Job.id job_id (jobs s) with
  | None => inl (HTTPException 404 "Job not found")
  | Some j =>
      match select_by_id Client.id (Job.client_id j) (clients s) with
      | None => inl (HTTPException 404 "Job not found")
      | Some _ => inr j
      end
  end.

(** *** Clients *)

Definition create_client (name address phone email : string) (s : store)
  : response * store :=
  (RedirectResponse "/clients",
   with_clients
     (insert_row Client.id
        (fun i => Client.mk i (strip name) (strip address) (strip phone)
                            (strip email))
        (clients s)) s).

Definition update_client (client_id : Z) (name address phone email : string)
    (s : store) : response * store :=
  match fetch_client s client_id with
  | inl e => (e, s)
  | inr _ =>
      (RedirectResponse ("/clients/" ++ str_int client_id)%string,
       with_clients
         (update_where (fun c => Client.id c =? client_id)
            (fun c => Client.mk (Client.id c) (strip name) (strip address)
                                (strip phone) (strip email))
            (clients s)) s)
  end.

(** [SELECT COUNT( * ) FROM jobs WHERE client_id = ?] *)
Definition job_count (s : store) (client_id : Z) : Z :=
  Z.of_nat
    (List.length
       (filter (fun j => Job.client_id j =? client_id) (rows (jobs s)))).

Definition delete_client (client_id : Z) (s : store) : response * store :=
  match fetch_client s client_id with
  | inl e => (e, s)
  | inr _ =>
      if job_count s client_id >? 0 then
        (RedirectResponse
           ("/clients/" ++ str_int client_id ++ "?error=has_jobs")%string, s)
      else
        (RedirectResponse "/clients",
         with_clients
           (delete_where (fun c => Client.id c =? client_id) (clients s)) s)
  end.

(** *** Crews *)

Definition create_crew (name : string) (s : store) : response * store :=
  let t := insert_row Crew.id (fun i => Crew.mk i (strip name)) (crews s) in
  (RedirectResponse ("/crews/" ++ str_int (seq t))%string, with_crews t s).

Definition update_crew (crew_id : Z) (name : string) (s : store)
  : response * store :=
  match fetch_crew s crew_id with
  | inl e => (e, s)
  | inr _ =>
      (RedirectResponse ("/crews/" ++ str_int crew_id)%string,
       with_crews
         (update_where (fun c => Crew.id c =? crew_id)
            (fun c => Crew.mk (Crew.id c) (strip name)) (crews s)) s)
  end.

(** [crew_id = ?] on the nullable column: NULL matches nothing. *)
Definition crew_id_is (crew_id : Z) (j : Job.t) : bool :=
  match Job.crew_id j with
  | Some c => c =? crew_id
  | None => false
  end.

Definition delete_crew (crew_id : Z) (s : store) : response * store :=
  match fetch_crew s crew_id with
  | inl e => (e, s)
  | inr _ =>
      let s1 :=
        with_jobs
          (update_where (crew_id_is crew_id) Job.clear_crew_id (jobs s)) s in
      (RedirectResponse "/crews",
       with_crews
         (delete_where (fun c => Crew.id c =? crew_id) (crews s1)) s1)
  end.

(** *** Members *)

Definition create_member (name : string) (s : store) : response * store :=
  let t :=
    insert_row Member.id (fun i => Member.mk i (strip name)) (members s) in
  (RedirectResponse ("/members/" ++ str_int (seq t))%string,
   with_members t s).

Definition update_member (member_id : Z) (name : string) (s : store)
  : response * store :=
  match fetch_member s member_id with
  | inl e => (e, s)
  | inr _ =>
      (RedirectResponse ("/members/" ++ str_int member_id)%string,
       with_members
         (update_where (fun m => Member.id m =? member_id)
            (fun m => Member.mk (Member.id m) (strip name)) (members s)) s)
  end.

Definition delete_member (member_id : Z) (s : store) : response * store :=
  match fetch_member s member_id with
  | inl e => (e, s)
  | inr _ =>
      let s1 :=
        with_job_members
          (filter (fun p => negb (snd p =? member_id)) (job_members s)) s in
      (RedirectResponse "/members",
       with_members
         (delete_where (fun m => Member.id m =? member_id) (members s1)) s1)
  end.

(** *** Quotes *)

(** [valid_until.strip() or None] *)
Definition strip_or_none (x : string) : option string :=
  if (strip x =? "")%string then None else Some (strip x).

Definition create_quote (now : datetime) (client_id : Z)
    (description : string) (estimated_hours estimated_cost : real)
    (valid_until : string) (s : store) : response * store :=
  match fetch_client s client_id with
  | inl e => (e, s)
  | inr _ =>
      let created_at := (isoformat now ++ "Z")%string in
      let t :=
        insert_row Quote.id
          (fun i => Quote.mk i client_id (strip description) estimated_hours
                             estimated_cost "Draft" (Some created_at)
                             (strip_or_none valid_until) None)
          (quotes s) in
      (RedirectResponse ("/quotes/" ++ str_int (seq t))%string,
       with_quotes t s)
  end.

(** The row [accept_quote] inserts: [crew = ''], [crew_id = NULL],
    [status = 'Scheduled'], the columns it does not name NULL. *)
Definition job_of_quote (scheduled_date : string) (q : Quote.t) (i : Z)
  : Job.t :=
  Job.mk i (Quote.client_id q) (Quote.description q) scheduled_date
         (Some "") None (Some (Quote.estimated_hours q))
         (Some (Quote.estimated_cost q)) None None "Scheduled"
         None None None None.

Definition accept_quote (now : datetime) (quote_id : Z) (s : store)
  : response * store :=
  match fetch_quote s quote_id with
  | inl e => (e, s)
  | inr quote =>
      if (Quote.status quote =? "Accepted")%string then
        (RedirectResponse ("/jobs/" ++ str_opt_int (Quote.job_id quote))%string,
         s)
      else if (Quote.status quote =? "Declined")%string then
        (HTTPException 400 "Cannot accept a declined quote", s)
      else
        let scheduled_date := strftime_seconds now in
        let s1 :=
          with_jobs
            (insert_row Job.id (job_of_quote scheduled_date quote) (jobs s))
            s in
        (* SELECT id FROM jobs ORDER BY id DESC LIMIT 1 *)
        match max_rowid (map Job.id (rows (jobs s1))) with
        | None => (Uncaught "TypeError", s1)
        | Some job_id =>
            (RedirectResponse ("/jobs/" ++ str_int job_id)%string,
             with_quotes
               (update_where (fun q => Quote.id q =? quote_id)
                  (Quote.set_accepted job_id) (quotes s1)) s1)
        end
  end.

Definition decline_quote (quote_id : Z) (s : store) : response * store :=
  match fetch_quote s quote_id with
  | inl e => (e, s)
  | inr quote =>
      if negb (str_in (Quote.status quote) ["Draft"; "Sent"]) then
        (HTTPException 400 "Quote already accepted or declined", s)
      else
        (RedirectResponse ("/quotes/" ++ str_int quote_id)%string,
         with_quotes
           (update_where (fun q => Quote.id q =? quote_id)
              (Quote.set_status "Declined") (quotes s)) s)
  end.

Definition send_quote (quote_id : Z) (s : store) : response * store :=
  match fetch_quote s quote_id with
  | inl e => (e, s)
  | inr quote =>
      if negb (Quote.status quote =? "Draft")%string then
        (HTTPException 400 "Only draft quotes can be marked as sent", s)
      else
        (RedirectResponse ("/quotes/" ++ str_int quote_id)%string,
         with_quotes
           (update_where (fun q => Quote.id q =? quote_id)
              (Quote.set_status "Sent") (quotes s)) s)
  end.

(** *** Jobs *)

Definition notify_customer (now : datetime) (job_id : Z) (s : store)
  : response * store :=
  match fetch_job s job_id with
  | inl e => (e, s)
  | inr _ =>
      let notified_at := (isoformat now ++ "Z")%string in
      (RedirectResponse ("/jobs/" ++ str_int job_id)%string,
       with_jobs
         (update_where (fun j => Job.id j =? job_id)
            (Job.set_on_my_way notified_at) (jobs s)) s)
  end.

(** [member_ids or []] *)
Definition member_ids_or_empty (member_ids : option (list Z)) : list Z :=
  match member_ids with
  | Some l => l
  | None => []
  end.

(** [int(crew_id) if crew_id and str(crew_id).strip() else None]: [None]
    and [0] are falsy, the printed form of an [int] is never blank. *)
Definition crew_id_or_none (crew_id : option Z) : option Z :=
  match crew_id with
  | Some c => if c =? 0 then None else Some c
  | None => None
  end.

(** The job insert is committed before the member rows are written, so a
    primary-key clash among the member rows leaves the new job behind
    without any of them. *)
Definition create_job (client_id : Z) (description scheduled_date crew : string)
    (crew_id : option Z) (member_ids : option (list Z))
    (estimated_hours estimated_cost : real) (s : store) : response * store :=
  match fromisoformat scheduled_date with
  | inr err => (HTTPException 400 ("Invalid date: " ++ err)%string, s)
  | inl dt =>
      let member_ids := member_ids_or_empty member_ids in
      let cid := crew_id_or_none crew_id in
      let t :=
        insert_row Job.id
          (fun i => Job.mk i client_id (strip description) (isoformat dt)
                           (Some (strip crew)) cid (Some estimated_hours)
                           (Some estimated_cost) None None "Scheduled"
                           None None None None)
          (jobs s) in
      let s1 := with_jobs t s in
      let job_id := seq t in
      match insert_job_members (job_members s1) job_id member_ids with
      | None => (Uncaught "sqlite3.IntegrityError", s1)
      | Some jm => (RedirectResponse "/jobs", with_job_members jm s1)
      end
  end.

(** The update, the roster delete and the roster inserts are one
    transaction: a primary-key clash rolls all of it back. *)
Definition update_job (job_id client_id : Z)
    (description scheduled_date crew : string) (crew_id : option Z)
    (member_ids : option (list Z)) (estimated_hours estimated_cost : real)
    (s : store) : response * store :=
  match fetch_job s job_id with
  | inl e => (e, s)
  | inr job =>
      if (Job.status job =? "Completed")%string then
        (HTTPException 400 "Cannot edit a completed job", s)
      else
        match fromisoformat scheduled_date with
        | inr err => (HTTPException 400 ("Invalid date: " ++ err)%string, s)
        | inl dt =>
            let member_ids := member_ids_or_empty member_ids in
            let cid := crew_id_or_none crew_id in
            let s1 :=
              with_jobs
                (update_where (fun j => Job.id j =? job_id)
                   (Job.set_edit client_id (strip description) (isoformat dt)
                                 (strip crew) cid estimated_hours
                                 estimated_cost)
                   (jobs s)) s in
            let jm :=
              filter (fun p => negb (fst p =? job_id)) (job_members s1) in
            match insert_job_members jm job_id member_ids with
            | None => (Uncaught "sqlite3.IntegrityError", s)
            | Some jm' =>
                (RedirectResponse ("/jobs/" ++ str_int job_id)%string,
                 with_job_members jm' s1)
            end
        end
  end.

Definition add_task (job_id : Z) (description : string) (s : store)
  : response * store :=
  (RedirectResponse ("/jobs/" ++ str_int job_id)%string,
   with_tasks
     (insert_row Task.id
        (fun i => Task.mk i job_id (strip description) 0) (tasks s)) s).

Definition toggle_task (task_id : Z) (s : store) : response * store :=
  match select_by_id Task.id task_id (tasks s) with
  | None => (HTTPException 404 "Task not found", s)
  | Some task =>
      let new_completed := if Task.completed task =? 0 then 1 else 0 in
      (RedirectResponse ("/jobs/" ++ str_int (Task.job_id task))%string,
       with_tasks
         (update_where (fun k => Task.id k =? task_id)
            (Task.set_completed new_completed) (tasks s)) s)
  end.

Definition update_job_status (job_id : Z) (status : string) (s : store)
  : response * store :=
  if negb (str_in status allowed_statuses) then
    (HTTPException 400 "Invalid status", s)
  else
    (RedirectResponse ("/jobs/" ++ str_int job_id)%string,
     with_jobs
       (update_where (fun j => Job.id j =? job_id) (Job.set_status status)
          (jobs s)) s).

Definition complete_job (job_id : Z) (actual_hours actual_cost : real)
    (status : string) (s : store) : response * store :=
  (RedirectResponse ("/jobs/" ++ str_int job_id)%string,
   with_jobs
     (update_where (fun j => Job.id j =? job_id)
        (Job.set_completion status actual_hours actual_cost) (jobs s)) s).

(** *** Invoices and payments *)

Definition mark_invoice_sent (now : datetime) (job_id : Z) (s : store)
  : response * store :=
  match fetch_job s job_id with
  | inl e => (e, s)
  | inr job =>
      if negb (Job.status job =? "Completed")%string then
        (HTTPException 400 "Job must be completed first", s)
      else
        let sent_at := (isoformat now ++ "Z")%string in
        (RedirectResponse ("/jobs/" ++ str_int job_id ++ "/invoice")%string,
         with_jobs
           (update_where (fun j => Job.id j =? job_id)
              (Job.set_invoice_sent sent_at) (jobs s)) s)
  end.

(** The payment rows of a job, in rowid order. *)
Definition payments_of (s : store) (job_id : Z) : list Payment.t :=
  filter (fun p => Payment.job_id p =? job_id) (rows (payments s)).

(** [SELECT COALESCE(SUM(amount), 0) FROM payments WHERE job_id = ?] *)
Definition total_paid (s : store) (job_id : Z) : real :=
  fold_left real_add (map Payment.amount (payments_of s job_id)) real_zero.

(** [float(job["actual_cost"] or 0)]: NULL and a falsy cost give 0. *)
Definition actual_cost_or_zero (job : Job.t) : real :=
  match Job.actual_cost job with
  | Some c => if real_truthy c then c else real_zero
  | None => real_zero
  end.

Definition add_payment (now : datetime) (job_id : Z) (amount : real)
    (method : string) (s : store) : response * store :=
  match fetch_job s job_id with
  | inl e => (e, s)
  | inr job =>
      if negb (Job.status job =? "Completed")%string then
        (HTTPException 400 "Job must be completed first", s)
      else if negb (str_in method allowed_methods) then
        (HTTPException 400 "Invalid payment method", s)
      else
        let paid_at := (isoformat now ++ "Z")%string in
        let s1 :=
          with_payments
            (insert_row Payment.id
               (fun i => Payment.mk i job_id amount method paid_at)
               (payments s)) s in
        let total := total_paid s1 job_id in
        let actual_cost := actual_cost_or_zero job in
        let url := ("/jobs/" ++ str_int job_id ++ "/invoice")%string in
        if real_ge total actual_cost then
          (RedirectResponse url,
           with_jobs
             (update_where (fun j => Job.id j =? job_id)
                (Job.set_paid paid_at) (jobs s1)) s1)
        else (RedirectResponse url, s1)
  end.

(** ** The application as a transition system *)

(** One constructor per POST route, with the form fields of its handler. *)
Inductive request : Type :=
| CreateClient (name address phone email : string)
| UpdateClient (client_id : Z) (name address phone email : string)
| DeleteClient (client_id : Z)
| CreateCrew (name : string)
| UpdateCrew (crew_id : Z) (name : string)
| DeleteCrew (crew_id : Z)
| CreateMember (name : string)
| UpdateMember (member_id : Z) (name : string)
| DeleteMember (member_id : Z)
| CreateQuote (client_id : Z) (description : string)
    (estimated_hours estimated_cost : real) (valid_until : string)
| AcceptQuote (quote_id : Z)
| DeclineQuote (quote_id : Z)
| SendQuote (quote_id : Z)
| NotifyCustomer (job_id : Z)
| CreateJob (client_id : Z) (description scheduled_date crew : string)
    (crew_id : option Z) (member_ids : option (list Z))
    (estimated_hours estimated_cost : real)
| UpdateJob (job_id client_id : Z) (description scheduled_date crew : string)
    (crew_id : option Z) (member_ids : option (list Z))
    (estimated_hours estimated_cost : real)
| AddTask (job_id : Z) (description : string)
| ToggleTask (task_id : Z)
| UpdateJobStatus (job_id : Z) (status : string)
| CompleteJob (job_id : Z) (actual_hours actual_cost : real) (status : string)
| MarkInvoiceSent (job_id : Z)
| AddPayment (job_id : Z) (amount : real) (method : string).

(** The router: [now] is what [datetime.utcnow()] returns while the request
    is served. *)
Definition handle (now : datetime) (r : request) (s : store)
  : response * store :=
  match r with
  | CreateClient n a p e => create_client n a p e s
  | UpdateClient i n a p e => update_client i n a p e s
  | DeleteClient i => delete_client i s
  | CreateCrew n => create_crew n s
  | UpdateCrew i n => update_crew i n s
  | DeleteCrew i => delete_crew i s
  | CreateMember n => create_member n s
  | UpdateMember i n => update_member i n s
  | DeleteMember i => delete_member i s
  | CreateQuote c d h k v => create_quote now c d h k v s
  | AcceptQuote i => accept_quote now i s
  | DeclineQuote i => decline_quote i s
  | SendQuote i => send_quote i s
  | NotifyCustomer i => notify_customer now i s
  | CreateJob c d sd cr ci ms h k => create_job c d sd cr ci ms h k s
  | UpdateJob i c d sd cr ci ms h k => update_job i c d sd cr ci ms h k s
  | AddTask i d => add_task i d s
  | ToggleTask i => toggle_task i s
  | UpdateJobStatus i st => update_job_status i st s
  | CompleteJob i h k st => complete_job i h k st s
  | MarkInvoiceSent i => mark_invoice_sent now i s
  | AddPayment i a m => add_payment now i a m s
  end.

(** The database after serving a list of requests, oldest first. *)
Fixpoint run (trace : list (datetime * request)) (s : store) : store :=
  match trace with
  | [] => s
  | (now, r) :: rest => run rest (snd (handle now r s))
  end.

(** The databases the application can be in. *)
Definition reachable (s : store) : Prop :=
  exists trace, run trace empty_store = s.

(** ** Vocabulary of the statements *)

(** The row of a job, of a quote, as a lookup by primary key finds it. *)
Definition job_row (s : store) (job_id : Z) : option Job.t :=
  select_by_id Job.id job_id (jobs s).

Definition quote_row (s : store) (quote_id : Z) : option Quote.t :=
  select_by_id Quote.id quote_id (quotes s).

(** The invoice of the job is marked paid. *)
Definition is_paid (s : store) (job_id : Z) : Prop :=
  exists j, job_row s job_id = Some j /\ Job.invoice_status j = Some "Paid".

(** The cost a payment total is compared with: [actual_cost], 0 when it is
    NULL. *)
Definition cost_due (job : Job.t) : real :=
  match Job.actual_cost job with
  | Some c => c
  | None => real_zero
  end.

(** The request is [complete] on the given job. *)
Definition completes (job_id : Z) (r : request) : Prop :=
  match r with
  | CompleteJob i _ _ _ => i = job_id
  | _ => False
  end.

(** The request is [mark_invoice_sent] on the given job. *)
Definition sends_invoice (job_id : Z) (r : request) : Prop :=
  match r with
  | MarkInvoiceSent i => i = job_id
  | _ => False
  end.

(** What one request can do to the jobs table: nothing, append a job with
    no actual figures and no invoice status, rewrite rows in a way that
    keeps their id and actual figures and either keeps the invoice status
    or sets it to Paid, or one of the two writes that only [complete_job]
    and only [mark_invoice_sent] perform. *)
Inductive jobs_effect (r : request) (t : table Job.t) : table Job.t -> Prop :=
| effect_none : jobs_effect r t t
| effect_insert (mk : Z -> Job.t) :
    (forall i, Job.id (mk i) = i /\
               Job.actual_hours (mk i) = None /\
               Job.actual_cost (mk i) = None /\
               Job.invoice_status (mk i) = None) ->
    jobs_effect r t (insert_row Job.id mk t)
| effect_update (p : Job.t -> bool) (f : Job.t -> Job.t) :
    (forall j, Job.id (f j) = Job.id j /\
               Job.actual_hours (f j) = Job.actual_hours j /\
               Job.actual_cost (f j) = Job.actual_cost j /\
               (Job.invoice_status (f j) = Job.invoice_status j \/
                Job.invoice_status (f j) = Some "Paid")) ->
    jobs_effect r t (update_where p f t)
| effect_complete (i : Z) (h c : real) (st : string) :
    r = CompleteJob i h c st ->
    jobs_effect r t
      (update_where (fun j => Job.id j =? i) (Job.set_completion st h c) t)
| effect_invoice_sent (i : Z) (sent_at : string) :
    r = MarkInvoiceSent i ->
    jobs_effect r t
      (update_where (fun j => Job.id j =? i) (Job.set_invoice_sent sent_at) t).

(** No row of the job carries actual hours or an actual cost. *)
Definition no_actuals (t : table Job.t) (job_id : Z) : Prop :=
  forall j, In j (rows t) -> Job.id j = job_id ->
            Job.actual_hours j = None /\ Job.actual_cost j = None.

End Handlers.

(** ** Read side and integrity conditions *)

(** A table obeys its primary key, and its rowids are positive and at most
    the [sqlite_sequence] entry. *)
Definition table_ok {A : Type} (key : A -> Z) (t : table A) : Prop :=
  NoDup (map key (rows t)) /\
  forall r, In r (rows t) -> 0 < key r <= seq t.

(** The four statuses the quote handlers write. *)
Definition quote_statuses : list string :=
  ["Draft"; "Sent"; "Accepted"; "Declined"].

Section Conditions.
Context {RT : Runtime}.

(** The primary keys of all eight tables. *)
Definition store_ok (s : store) : Prop :=
  table_ok Client.id (clients s) /\
  table_ok Crew.id (crews s) /\
  table_ok Member.id (members s) /\
  table_ok Job.id (jobs s) /\
  table_ok Task.id (tasks s) /\
  table_ok Quote.id (quotes s) /\
  table_ok Payment.id (payments s) /\
  NoDup (job_members s).

(** A quote row is consistent with the jobs table: a known status, and a
    job reference exactly when Accepted, to a job that exists. *)
Definition quote_ok (s : store) (q : Quote.t) : Prop :=
  str_in (Quote.status q) quote_statuses = true /\
  match Quote.job_id q with
  | Some i => Quote.status q = "Accepted" /\ job_row s i <> None
  | None => Quote.status q <> "Accepted"
  end.

(** The invoice columns of a job row are consistent with the payment rows:
    the status is NULL, Sent or Paid, and a Paid job has a payment date and
    at least one payment. *)
Definition invoice_ok (pays : list Payment.t) (j : Job.t) : Prop :=
  (Job.invoice_status j = None \/ Job.invoice_status j = Some "Sent" \/
   Job.invoice_status j = Some "Paid") /\
  (Job.invoice_status j = Some "Paid" ->
   Job.paid_at j <> None /\
   filter (fun p => Payment.job_id p =? Job.id j) pays <> []).

(** [WHERE status = 'Completed' AND (invoice_status IS NULL OR
    invoice_status != 'Paid')], the condition of the unpaid queries of
    [home] and [reports]. *)
Definition is_unpaid (j : Job.t) : bool :=
  (Job.status j =? "Completed")%string &&
  match Job.invoice_status j with
  | None => true
  | Some st => negb (st =? "Paid")%string
  end.

(** The job rows the unpaid query of [home] counts. *)
Definition unpaid_rows (s : store) : list Job.t :=
  filter is_unpaid (rows (jobs s)).

(** [SELECT COUNT( * ) ...] of that query. *)
Definition unpaid_count (s : store) : Z :=
  Z.of_nat (List.length (unpaid_rows s)).

(** The clients table has a row with this id. *)
Definition has_client (s : store) (client_id : Z) : bool :=
  match select_by_id Client.id client_id (clients s) with
  | Some _ => true
  | None => false
  end.

(** The sum of the payments of one job, read off the payment rows one by
    one: starting from [acc], each row of the job adds its amount, the rows
    of other jobs add nothing.  This is the total the statements speak of;
    [total_paid] is the query of the handler, and the two are proved
    equal. *)
Fixpoint sum_paid (job_id : Z) (acc : real) (pays : list Payment.t) : real :=
  match pays with
  | [] => acc
  | p :: rest =>
      if Payment.job_id p =? job_id
      then sum_paid job_id (real_add acc (Payment.amount p)) rest
      else sum_paid job_id acc rest
  end.

Definition paid_for_job (s : store) (job_id : Z) : real :=
  sum_paid job_id real_zero (rows (payments s)).

(** The database at the first [conn.commit()] of [accept_quote]: the job
    inserted, the quote not yet updated.  [None] when the handler returns
    or raises before it writes. *)
Definition accept_quote_first_commit (now : datetime) (quote_id : Z)
    (s : store) : option store :=
  match fetch_quote s quote_id with
  | inl _ => None
  | inr quote =>
      if (Quote.status quote =? "Accepted")%string then None
      else if (Quote.status quote =? "Declined")%string then None
      else
        Some
          (with_jobs
             (insert_row Job.id
                (job_of_quote (strftime_seconds now) quote) (jobs s)) s)
  end.

(** The row of a task as a lookup by primary key finds it. *)
Definition task_row (s : store) (task_id : Z) : option Task.t :=
  select_by_id Task.id task_id (tasks s).

(** Every quote row is consistent. *)
Definition quotes_ok (s : store) : Prop :=
  forall q, In q (rows (quotes s)) -> quote_ok s q.

(** Every payment row and every roster row names a job that exists. *)
Definition job_refs_ok (s : store) : Prop :=
  (forall p, In p (rows (payments s)) ->
             job_row s (Payment.job_id p) <> None) /\
  (forall p, In p (job_members s) -> job_row s (fst p) <> None).

(** The invoice columns of every job row are consistent with the payment
    rows. *)
Definition invoices_ok (s : store) : Prop :=
  forall j, In j (rows (jobs s)) -> invoice_ok (rows (payments s)) j.

End Conditions.

(** ** A runtime to run the handlers on concrete requests

    Amounts are exact rationals, [strip] removes ASCII white space, and a
    [datetime] is its own ISO text.  The theorems below hold for every
    [Runtime]; this one serves for the worked examples. *)

Definition is_space (a : ascii) : bool :=
  let n := nat_of_ascii a in
  (Nat.eqb n 32 || (Nat.leb 9 n && Nat.leb n 13))%bool.

Fixpoint lstrip (s : string) : string :=
  match s with
  | EmptyString => EmptyString
  | String a r => if is_space a then lstrip r else s
  end.

Fixpoint rstrip (s : string) : string :=
  match s with
  | EmptyString => EmptyString
  | String a r =>
      let r' := rstrip r in
      if (is_space a && (r' =? ""))%bool%string then EmptyString
      else String a r'
  end.

Definition ascii_strip (s : string) : string := rstrip (lstrip s).

Definition Q_ge (a b : Q) : bool := Qle_bool b a.

Definition Q_lt (a b : Q) : bool := negb (Qle_bool b a).

Definition Q_truthy (a : Q) : bool := negb (Qeq_bool a 0).

Definition text_fromisoformat (s : string) : string + string :=
  if (s =? "")%string then inr "Invalid isoformat string: ''" else inl s.

#[refine] Instance QRuntime : Runtime := {|
  real := Q;
  real_zero := 0%Q;
  real_add := Qplus;
  real_ge := Q_ge;
  real_lt := Q_lt;
  real_truthy := Q_truthy;
  strip := ascii_strip;
  datetime := string;
  fromisoformat := text_fromisoformat;
  isoformat := fun d => d;
  strftime_seconds := fun d => substring 0 19 d
|}.
Proof.
  - intros a b H. unfold Q_lt, Q_ge in *.
    apply negb_true_iff in H. unfold Qle_bool in *.
    apply Z.leb_gt in H. apply Z.leb_gt.
    unfold Qlt, Qle in *. simpl in *. lia.
  - intros t a H. unfold Q_truthy, Q_ge in *.
    apply negb_false_iff in H. apply Qeq_bool_iff in H.
    destruct (Qle_bool a t) eqn:E1, (Qle_bool 0 t) eqn:E2; try reflexivity.
    + apply Qle_bool_iff in E1. rewrite H in E1.
      apply Qle_bool_iff in E1. congruence.
    + apply Qle_bool_iff in E2. rewrite <- H in E2.
      apply Qle_bool_iff in E2. congruence.
  - intros t a H. unfold Q_truthy, Q_lt in *.
    apply negb_false_iff in H. apply Qeq_bool_iff in H.
    f_equal.
    destruct (Qle_bool a t) eqn:E1, (Qle_bool 0 t) eqn:E2; try reflexivity.
    + apply Qle_bool_iff in E1. rewrite H in E1.
      apply Qle_bool_iff in E1. congruence.
    + apply Qle_bool_iff in E2. rewrite <- H in E2.
      apply Qle_bool_iff in E2. congruence.
Defined.

(** ** Worked databases

    The scenarios of the specification, run on [QRuntime]. *)

Definition ex_now : @datetime QRuntime := "2026-03-02T09:30:00.250000".

Definition ex_client : @request QRuntime :=
  CreateClient "Ann Gardener" " 1 Elm Road " "" "".

Definition ex_job : @request QRuntime :=
  CreateJob 1 "Mow the lawn" "2026-03-01T08:00:00" "" None None 2%Q 150%Q.

(** One client and one job for it, still Scheduled. *)
Definition ex_scheduled : @store QRuntime :=
  run [(ex_now, ex_client); (ex_now, ex_job)] empty_store.

(** The job completed with an actual cost of 150. *)
Definition ex_completed : @store QRuntime :=
  run [(ex_now, CompleteJob 1 2%Q 150%Q "Completed")] ex_scheduled.

(** After a first payment of 100, and after a second one of 50. *)
Definition ex_part_paid : @store QRuntime :=
  run [(ex_now, AddPayment 1 100%Q "Cash")] ex_completed.

Definition ex_paid : @store QRuntime :=
  run [(ex_now, AddPayment 1 50%Q "Card")] ex_part_paid.

(** One client and one quote for it, sent. *)
Definition ex_quoted : @store QRuntime :=
  run [(ex_now, ex_client);
       (ex_now, CreateQuote 1 "Trim the hedge" 2%Q 100%Q "");
       (ex_now, SendQuote 1)] empty_store.

(** The quote accepted. *)
Definition ex_accepted : @store QRuntime :=
  run [(ex_now, AcceptQuote 1)] ex_quoted.

(** A job completed and then set back to Scheduled. *)
Definition ex_reopened_trace : list (@datetime QRuntime * @request QRuntime) :=
  [(ex_now, ex_client); (ex_now, ex_job);
   (ex_now, CompleteJob 1 2%Q 150%Q "Completed");
   (ex_now, UpdateJobStatus 1 "Scheduled")].

(** A job started but never completed. *)
Definition ex_started_trace : list (@datetime QRuntime * @request QRuntime) :=
  [(ex_now, ex_client); (ex_now, ex_job);
   (ex_now, UpdateJobStatus 1 "In progress");
   (ex_now, NotifyCustomer 1)].

(** Requests on a paid job that do not resend its invoice. *)
Definition ex_after_paid_trace : list (@datetime QRuntime * @request QRuntime) :=
  [(ex_now, AddPayment 1 10%Q "Other");
   (ex_now, UpdateJobStatus 1 "In progress");
   (ex_now, CompleteJob 1 3%Q 500%Q "Completed");
   (ex_now, AddPayment 1 1%Q "Check")].

(** One client and a draft quote for it. *)
Definition ex_drafted : @store QRuntime :=
  run [(ex_now, ex_client);
       (ex_now, CreateQuote 1 "  Trim the hedge " 2%Q 100%Q " 2026-04-01 ")]
      empty_store.

(** Requests thrown at an accepted quote. *)
Definition ex_after_accept_trace
  : list (@datetime QRuntime * @request QRuntime) :=
  [(ex_now, SendQuote 1); (ex_now, DeclineQuote 1); (ex_now, AcceptQuote 1);
   (ex_now, CompleteJob 1 2%Q 100%Q "Completed");
   (ex_now, UpdateClient 1 "Ann G." "" "" "")].

(** The scheduled job with one task. *)
Definition ex_tasked : @store QRuntime :=
  run [(ex_now, AddTask 1 " Rake the leaves ")] ex_scheduled.

(** Two crews, two members, and two jobs: the first with crew 1 and both
    members, the second with crew 2 and member 2. *)
Definition ex_staffed_trace
  : list (@datetime QRuntime * @request QRuntime) :=
  [(ex_now, ex_client);
   (ex_now, CreateCrew "North"); (ex_now, CreateCrew "South");
   (ex_now, CreateMember "Bo"); (ex_now, CreateMember "Cy");
   (ex_now, CreateJob 1 "Mow the lawn" "2026-03-01T08:00:00" "" (Some 1)
                      (Some [1; 2]) 2%Q 150%Q);
   (ex_now, CreateJob 1 "Prune the roses" "2026-03-02T08:00:00" "" (Some 2)
                      (Some [2]) 1%Q 60%Q)].

Definition ex_staffed : @store QRuntime := run ex_staffed_trace empty_store.

(** The whole history of [ex_paid], from the empty database. *)
Definition ex_paid_trace : list (@datetime QRuntime * @request QRuntime) :=
  [(ex_now, ex_client); (ex_now, ex_job);
   (ex_now, CompleteJob 1 2%Q 150%Q "Completed");
   (ex_now, AddPayment 1 100%Q "Cash");
   (ex_now, AddPayment 1 50%Q "Card")].

(** A job created for a client id that no client has, still Scheduled, and
    the same job completed. *)
Definition ex_stray_trace : list (@datetime QRuntime * @request QRuntime) :=
  [(ex_now, CreateJob 99 "Mow the lawn" "2026-03-01T08:00:00" "" None None
                      2%Q 150%Q)].

Definition ex_stray_scheduled : @store QRuntime :=
  run ex_stray_trace empty_store.

Definition ex_stray_completed_trace
  : list (@datetime QRuntime * @request QRuntime) :=
  ex_stray_trace ++ [(ex_now, CompleteJob 1 2%Q 150%Q "Completed")].

Definition ex_stray_completed : @store QRuntime :=
  run ex_stray_completed_trace empty_store.

(** A sent quote whose client was deleted. *)
Definition ex_stray_quoted_trace
  : list (@datetime QRuntime * @request QRuntime) :=
  [(ex_now, ex_client);
   (ex_now, CreateQuote 1 "Trim the hedge" 2%Q 100%Q "");
   (ex_now, SendQuote 1);
   (ex_now, DeleteClient 1)].

Definition ex_stray_quoted : @store QRuntime :=
  run ex_stray_quoted_trace empty_store.

(** An accepted quote whose client was deleted after its job had been
    moved to another client. *)
Definition ex_stray_accepted_trace
  : list (@datetime QRuntime * @request QRuntime) :=
  [(ex_now, ex_client);
   (ex_now, CreateClient "Bob Mower" "" "" "");
   (ex_now, CreateQuote 1 "Trim the hedge" 2%Q 100%Q "");
   (ex_now, AcceptQuote 1);
   (ex_now, UpdateJob 1 2 "Trim the hedge" "2026-03-04T08:00:00" "" None None
                      2%Q 100%Q);
   (ex_now, DeleteClient 1)].

Definition ex_stray_accepted : @store QRuntime :=
  run ex_stray_accepted_trace empty_store.

(** ** Properties *)

Section TableFacts.
Context {A : Type} (key : A -> Z).

Lemma select_by_id_key (i : Z) (t : table A) (r : A) :
  select_by_id key i t = Some r -> key r = i.
Proof.
  unfold select_by_id. intros H. apply find_some in H.
  destruct H as [_ H]. now apply Z.eqb_eq.
Qed.

Lemma select_by_id_in (i : Z) (t : table A) (r : A) :
  select_by_id key i t = Some r -> In r (rows t).
Proof.
  unfold select_by_id. intros H. now apply find_some in H.
Qed.

Lemma select_by_id_none (i : Z) (t : table A) (r : A) :
  select_by_id key i t = None -> In r (rows t) -> key r <> i.
Proof.
  unfold select_by_id. intros H Hin Hk.
  apply (find_none _ _ H) in Hin. apply Z.eqb_neq in Hin. contradiction.
Qed.

(** An update that keeps the keys updates what a lookup by key finds. *)
Lemma select_by_id_update_where (i : Z) (p : A -> bool) (f : A -> A)
    (t : table A) :
  (forall r, key (f r) = key r) ->
  select_by_id key i (update_where p f t) =
  option_map (fun r => if p r then f r else r) (select_by_id key i t).
Proof.
  intros Hk. unfold select_by_id, update_where. simpl.
  induction (rows t) as [|r l IH]; simpl; [reflexivity|].
  assert (E : key (if p r then f r else r) = key r)
    by (destruct (p r); [apply Hk | reflexivity]).
  rewrite E. destruct (key r =? i); [reflexivity | exact IH].
Qed.

(** A lookup by key is unchanged by an update that keeps the keys and
    whose condition the found row does not meet. *)
Lemma select_by_id_update_skip (i : Z) (p : A -> bool) (f : A -> A)
    (t : table A) (r : A) :
  (forall x, key (f x) = key x) ->
  select_by_id key i t = Some r -> p r = false ->
  select_by_id key i (update_where p f t) = Some r.
Proof.
  intros Hk Hs Hp. rewrite select_by_id_update_where by exact Hk.
  rewrite Hs. simpl. now rewrite Hp.
Qed.

Lemma max_rowid_none (ids : list Z) : max_rowid ids = None -> ids = [].
Proof.
  destruct ids as [|i rest]; [reflexivity|]. simpl.
  destruct (max_rowid rest); discriminate.
Qed.

Lemma max_rowid_ge (ids : list Z) (m x : Z) :
  max_rowid ids = Some m -> In x ids -> x <= m.
Proof.
  revert m. induction ids as [|i rest IH]; intros m Hm Hin; [contradiction|].
  simpl in Hm. destruct (max_rowid rest) as [m'|] eqn:E.
  - injection Hm as <-. destruct Hin as [-> | Hin].
    + lia.
    + specialize (IH m' eq_refl Hin). lia.
  - injection Hm as <-. apply max_rowid_none in E. subst rest.
    destruct Hin as [-> | []]. lia.
Qed.

(** The rowid handed out is above every rowid in the table. *)
Lemma next_rowid_fresh (t : table A) (r : A) :
  In r (rows t) -> key r < next_rowid key t.
Proof.
  intros Hin. unfold next_rowid.
  destruct (max_rowid (map key (rows t))) as [m|] eqn:E.
  - assert (key r <= m) by (eapply max_rowid_ge; [exact E | now apply in_map]).
    lia.
  - apply max_rowid_none in E. apply map_eq_nil in E.
    rewrite E in Hin. contradiction.
Qed.

Lemma max_rowid_snoc (ids : list Z) (n : Z) :
  (forall x, In x ids -> x < n) -> max_rowid (ids ++ [n]) = Some n.
Proof.
  induction ids as [|i rest IH]; intros H; simpl; [reflexivity|].
  rewrite IH by (intros x Hx; apply H; now right).
  f_equal. assert (i < n) by (apply H; now left). lia.
Qed.

(** [SELECT id ... ORDER BY id DESC LIMIT 1] right after an insert returns
    the rowid of the inserted row. *)
Lemma max_rowid_insert_row (mk : Z -> A) (t : table A) :
  (forall i, key (mk i) = i) ->
  max_rowid (map key (rows (insert_row key mk t))) = Some (next_rowid key t).
Proof.
  intros Hmk. unfold insert_row. simpl. rewrite map_app. simpl.
  rewrite Hmk. apply max_rowid_snoc.
  intros x Hx. apply in_map_iff in Hx. destruct Hx as [r [<- Hr]].
  now apply next_rowid_fresh.
Qed.

(** A row that a lookup finds is still what it finds after an insert. *)
Lemma select_by_id_insert_row (i : Z) (mk : Z -> A) (t : table A) (r : A) :
  select_by_id key i t = Some r ->
  select_by_id key i (insert_row key mk t) = Some r.
Proof.
  unfold select_by_id, insert_row. simpl. intros H.
  induction (rows t) as [|x l IH]; simpl in *; [discriminate|].
  destruct (key x =? i); [exact H | now apply IH].
Qed.

End TableFacts.

Section HandlerFacts.
Context {RT : Runtime}.

Lemma fetch_job_row (s : store) (job_id : Z) (job : Job.t) :
  fetch_job s job_id = inr job -> job_row s job_id = Some job.
Proof.
  unfold fetch_job, job_row. intros H.
  destruct (select_by_id Job.id job_id (jobs s)) as [j|]; [|discriminate].
  destruct (select_by_id Client.id (Job.client_id j) (clients s));
    [|discriminate].
  now injection H as ->.
Qed.

(** [fetch_job] succeeds exactly on a job row whose client row exists. *)
Lemma fetch_job_iff (s : store) (job_id : Z) (job : Job.t) :
  fetch_job s job_id = inr job <->
  job_row s job_id = Some job /\
  exists c, select_by_id Client.id (Job.client_id job) (clients s) = Some c.
Proof.
  unfold fetch_job, job_row. split.
  - intros H.
    destruct (select_by_id Job.id job_id (jobs s)) as [j|]; [|discriminate].
    destruct (select_by_id Client.id (Job.client_id j) (clients s)) eqn:E;
      [|discriminate].
    injection H as ->. split; [reflexivity | eauto].
  - intros [H [c Hc]]. now rewrite H, Hc.
Qed.

Lemma fetch_quote_row (s : store) (quote_id : Z) (q : Quote.t) :
  fetch_quote s quote_id = inr q -> quote_row s quote_id = Some q.
Proof.
  unfold fetch_quote, quote_row. intros H.
  destruct (select_by_id Quote.id quote_id (quotes s)) as [x|]; [|discriminate].
  destruct (select_by_id Client.id (Quote.client_id x) (clients s));
    [|discriminate].
  now injection H as ->.
Qed.

Lemma fetch_client_row (s : store) (client_id : Z) (c : Client.t) :
  fetch_client s client_id = inr c ->
  select_by_id Client.id client_id (clients s) = Some c.
Proof.
  unfold fetch_client. intros H.
  destruct (select_by_id Client.id client_id (clients s)); [|discriminate].
  now injection H as ->.
Qed.

Lemma job_row_id (s : store) (job_id : Z) (j : Job.t) :
  job_row s job_id = Some j -> Job.id j = job_id.
Proof. apply select_by_id_key. Qed.

Lemma quote_row_id (s : store) (quote_id : Z) (q : Quote.t) :
  quote_row s quote_id = Some q -> Quote.id q = quote_id.
Proof. apply select_by_id_key. Qed.

Lemma eqb_neq_false (a b : string) : a <> b -> (a =? b)%string = false.
Proof. apply String.eqb_neq. Qed.

(** *** Completion *)

(** C10.  [complete_job] does not validate its [status] argument: whatever
    the string, and so also one outside Scheduled / In progress / Completed,
    the call answers with the redirect to the job page, and the row of the
    job then holds that string as its status together with the submitted
    actual hours and actual cost. *)
Theorem complete_job_any_status (s : store) (job_id : Z) (j : Job.t)
    (h c : real) (st : string) :
  job_row s job_id = Some j ->
  exists j',
    fst (complete_job job_id h c st s)
      = RedirectResponse ("/jobs/" ++ str_int job_id)%string /\
    job_row (snd (complete_job job_id h c st s)) job_id = Some j' /\
    j' = Job.set_completion st h c j /\
    Job.status j' = st /\
    Job.actual_hours j' = Some h /\
    Job.actual_cost j' = Some c.
Proof.
  intros Hj. exists (Job.set_completion st h c j).
  split; [reflexivity|]. split; [|repeat split].
  unfold complete_job, job_row in *. simpl.
  rewrite select_by_id_update_where by reflexivity.
  rewrite Hj. simpl.
  apply select_by_id_key in Hj. apply Z.eqb_eq in Hj. now rewrite Hj.
Qed.

(** *** Lookups, case by case *)

(** [fetch_job] on an id that has a job row: the row when its client
    exists, 404 otherwise. *)
Lemma fetch_job_cases (s : store) (job_id : Z) (job : Job.t) :
  job_row s job_id = Some job ->
  fetch_job s job_id =
  if has_client s (Job.client_id job) then inr job
  else inl (HTTPException 404 "Job not found").
Proof.
  unfold job_row, fetch_job, has_client. intros ->.
  destruct (select_by_id Client.id (Job.client_id job) (clients s));
    reflexivity.
Qed.

Lemma fetch_quote_cases (s : store) (quote_id : Z) (q : Quote.t) :
  quote_row s quote_id = Some q ->
  fetch_quote s quote_id =
  if has_client s (Quote.client_id q) then inr q
  else inl (HTTPException 404 "Quote not found").
Proof.
  unfold quote_row, fetch_quote, has_client. intros ->.
  destruct (select_by_id Client.id (Quote.client_id q) (clients s));
    reflexivity.
Qed.

(** *** Invoice operations on a job that is not completed *)

(** C6, as the code has it.  On every job row whose status is not
    Completed, [add_payment] and [mark_invoice_sent] fail and return the
    database as it was, so no payment row is created and the invoice
    fields are untouched: with the 400 error "Job must be completed first"
    when the client row of the job exists, with the 404 error "Job not
    found" when it does not.  A payment method outside Cash / Check / Card
    / Other makes [add_payment] fail and return the database as it was:
    with 404 for a job without client row, with 400 "Job must be completed
    first" for a job that is not completed, with 400 "Invalid payment
    method" for a completed one. *)
Theorem invoice_ops_need_completed (now : datetime) (s : store) (job_id : Z)
    (job : Job.t) (amount : real) (method : string) :
  job_row s job_id = Some job ->
  (Job.status job <> "Completed" ->
     add_payment now job_id amount method s
       = (if has_client s (Job.client_id job)
          then HTTPException 400 "Job must be completed first"
          else HTTPException 404 "Job not found", s) /\
     mark_invoice_sent now job_id s
       = (if has_client s (Job.client_id job)
          then HTTPException 400 "Job must be completed first"
          else HTTPException 404 "Job not found", s)) /\
  (str_in method allowed_methods = false ->
     add_payment now job_id amount method s
       = (if has_client s (Job.client_id job)
          then if (Job.status job =? "Completed")%string
               then HTTPException 400 "Invalid payment method"
               else HTTPException 400 "Job must be completed first"
          else HTTPException 404 "Job not found", s)).
Proof.
  intros Hj. pose proof (fetch_job_cases s job_id job Hj) as Hf. split.
  - intros Hst. apply eqb_neq_false in Hst.
    unfold add_payment, mark_invoice_sent. rewrite Hf.
    destruct (has_client s (Job.client_id job)); [|now split].
    rewrite Hst. cbn [negb]. now split.
  - intros Hm. unfold add_payment. rewrite Hf.
    destruct (has_client s (Job.client_id job)); [|reflexivity].
    destruct (Job.status job =? "Completed")%string; cbn [negb];
      [|reflexivity].
    rewrite Hm. reflexivity.
Qed.

(** *** Editing a completed job *)

(** C4, as the code has it.  On every job row whose status is Completed,
    [update_job], which carries the field edits and the replacement of the
    member roster, fails and returns the database as it was: with the 400
    error "Cannot edit a completed job" when the client row of the job
    exists, with the 404 error "Job not found" when it does not. *)
Theorem update_job_on_completed (s : store) (job_id client_id : Z)
    (job : Job.t) (description scheduled_date crew : string)
    (crew_id : option Z) (member_ids : option (list Z)) (eh ec : real) :
  job_row s job_id = Some job ->
  Job.status job = "Completed" ->
  update_job job_id client_id description scheduled_date crew crew_id
             member_ids eh ec s
    = (if has_client s (Job.client_id job)
       then HTTPException 400 "Cannot edit a completed job"
       else HTTPException 404 "Job not found", s).
Proof.
  intros Hj Hst. unfold update_job.
  rewrite (fetch_job_cases s job_id job Hj).
  destruct (has_client s (Job.client_id job)); [|reflexivity].
  rewrite Hst. reflexivity.
Qed.

(** A status update looks neither at the job nor at its current status. *)
Lemma update_job_status_writes (s : store) (job_id : Z) (j : Job.t)
    (st : string) :
  job_row s job_id = Some j ->
  str_in st allowed_statuses = true ->
  fst (update_job_status job_id st s)
    = RedirectResponse ("/jobs/" ++ str_int job_id)%string /\
  job_row (snd (update_job_status job_id st s)) job_id
    = Some (Job.set_status st j).
Proof.
  intros Hj Hst. unfold update_job_status. rewrite Hst. simpl.
  split; [reflexivity|]. unfold job_row in *. simpl.
  rewrite select_by_id_update_where by reflexivity.
  rewrite Hj. simpl.
  apply select_by_id_key in Hj. apply Z.eqb_eq in Hj. now rewrite Hj.
Qed.

(** [mark_invoice_sent] on a completed job writes Sent whatever the invoice
    status was. *)
Lemma mark_invoice_sent_writes (now : datetime) (s : store) (job_id : Z)
    (job : Job.t) :
  fetch_job s job_id = inr job ->
  Job.status job = "Completed" ->
  fst (mark_invoice_sent now job_id s)
    = RedirectResponse ("/jobs/" ++ str_int job_id ++ "/invoice")%string /\
  job_row (snd (mark_invoice_sent now job_id s)) job_id
    = Some (Job.set_invoice_sent (isoformat now ++ "Z")%string job).
Proof.
  intros Hf Hst. unfold mark_invoice_sent.
  rewrite Hf, Hst, String.eqb_refl. cbn [negb fst snd].
  split; [reflexivity|]. apply fetch_job_row in Hf. unfold job_row in *.
  cbn [jobs with_jobs].
  rewrite select_by_id_update_where by reflexivity.
  rewrite Hf. simpl.
  apply select_by_id_key in Hf. apply Z.eqb_eq in Hf. now rewrite Hf.
Qed.

End HandlerFacts.

Section QuoteWorkflow.
Context {RT : Runtime}.

Lemma not_accepted_nor_declined (q : Quote.t) :
  Quote.status q = "Draft" \/ Quote.status q = "Sent" ->
  (Quote.status q =? "Accepted")%string = false /\
  (Quote.status q =? "Declined")%string = false.
Proof. intros [-> | ->]; split; reflexivity. Qed.

(** What [accept_quote] computes on a quote it can fetch and that is neither
    accepted nor declined. *)
Lemma accept_quote_open (now : datetime) (s : store) (quote_id : Z)
    (q : Quote.t) :
  fetch_quote s quote_id = inr q ->
  (Quote.status q =? "Accepted")%string = false ->
  (Quote.status q =? "Declined")%string = false ->
  let new_id := next_rowid Job.id (jobs s) in
  let s1 :=
    with_jobs
      (insert_row Job.id (job_of_quote (strftime_seconds now) q) (jobs s)) s in
  accept_quote now quote_id s =
  (RedirectResponse ("/jobs/" ++ str_int new_id)%string,
   with_quotes
     (update_where (fun x => Quote.id x =? quote_id)
        (Quote.set_accepted new_id) (quotes s1)) s1).
Proof.
  intros Hf E1 E2 new_id s1. unfold accept_quote.
  rewrite Hf, E1, E2. fold s1.
  assert (Hmax : max_rowid (map Job.id (rows (jobs s1))) = Some new_id).
  { unfold s1. cbn [jobs with_jobs].
    apply (max_rowid_insert_row Job.id). reflexivity. }
  now rewrite Hmax.
Qed.

(** C5, as the code has it.  On every quote row whose status is Draft or
    Sent and whose client row exists, [accept_quote] appends exactly one
    row to the jobs table, with a rowid above every rowid in the table; the
    new job carries the client, the description and the estimated hours
    and cost of the quote and has status Scheduled.  The database returned
    by the same call holds the quote with status Accepted and with
    [job_id] the rowid of the new job, and the call redirects to that job.
    No other table changes.  The two writes are two commits: the database
    of the first commit holds the new job while the quote row is still
    what it was.  When the client row of the quote does not exist, the
    call fails with the 404 error "Quote not found" and changes
    nothing. *)
Theorem accept_quote_outcomes (now : datetime) (s : store) (quote_id : Z)
    (q : Quote.t) :
  quote_row s quote_id = Some q ->
  Quote.status q = "Draft" \/ Quote.status q = "Sent" ->
  let new_id := next_rowid Job.id (jobs s) in
  let job := job_of_quote (strftime_seconds now) q new_id in
  let s' := snd (accept_quote now quote_id s) in
  (has_client s (Quote.client_id q) = true ->
     fst (accept_quote now quote_id s)
       = RedirectResponse ("/jobs/" ++ str_int new_id)%string /\
     rows (jobs s') = rows (jobs s) ++ [job] /\
     (forall j, In j (rows (jobs s)) -> Job.id j < new_id) /\
     (Job.id job = new_id /\
      Job.client_id job = Quote.client_id q /\
      Job.description job = Quote.description q /\
      Job.estimated_hours job = Some (Quote.estimated_hours q) /\
      Job.estimated_cost job = Some (Quote.estimated_cost q) /\
      Job.status job = "Scheduled") /\
     (exists q',
        quote_row s' quote_id = Some q' /\
        Quote.status q' = "Accepted" /\
        Quote.job_id q' = Some new_id /\
        q' = Quote.set_accepted new_id q) /\
     quotes s' = update_where (fun x => Quote.id x =? quote_id)
                   (Quote.set_accepted new_id) (quotes s) /\
     clients s' = clients s /\ crews s' = crews s /\
     members s' = members s /\ tasks s' = tasks s /\
     payments s' = payments s /\ job_members s' = job_members s /\
     (exists s1,
        accept_quote_first_commit now quote_id s = Some s1 /\
        rows (jobs s1) = rows (jobs s) ++ [job] /\
        quote_row s1 quote_id = Some q /\
        s' = with_quotes
               (update_where (fun x => Quote.id x =? quote_id)
                  (Quote.set_accepted new_id) (quotes s1)) s1)) /\
  (has_client s (Quote.client_id q) = false ->
     accept_quote now quote_id s
       = (HTTPException 404 "Quote not found", s) /\
     accept_quote_first_commit now quote_id s = None).
Proof.
  intros Hq Hst new_id job s'.
  pose proof (fetch_quote_cases s quote_id q Hq) as Hf.
  destruct (not_accepted_nor_declined q Hst) as [E1 E2]. split.
  - intros Hc. rewrite Hc in Hf.
    pose proof (accept_quote_open now s quote_id q Hf E1 E2) as Heq.
    cbv zeta in Heq. unfold s'. rewrite Heq. cbn [fst snd].
    split; [reflexivity|]. split; [reflexivity|].
    split; [intros j Hj; now apply (next_rowid_fresh Job.id)|].
    split; [repeat split|].
    assert (Hrow : select_by_id Quote.id quote_id
                     (update_where (fun x => Quote.id x =? quote_id)
                        (Quote.set_accepted new_id) (quotes s))
                   = Some (Quote.set_accepted new_id q)).
    { unfold quote_row in Hq.
      rewrite select_by_id_update_where by reflexivity.
      rewrite Hq. simpl.
      apply select_by_id_key in Hq. apply Z.eqb_eq in Hq. now rewrite Hq. }
    split; [exists (Quote.set_accepted new_id q); repeat split; exact Hrow|].
    split; [reflexivity|]. do 6 (split; [reflexivity|]).
    eexists. split; [|split; [|split]].
    + unfold accept_quote_first_commit. rewrite Hf, E1, E2. reflexivity.
    + reflexivity.
    + exact Hq.
    + reflexivity.
  - intros Hc. rewrite Hc in Hf.
    unfold accept_quote, accept_quote_first_commit. rewrite Hf. now split.
Qed.

(** The call changes the database only by doing both writes: when the
    database it returns differs from the one it got, one job row was
    appended and the quote points to it. *)
Lemma accept_quote_all_or_nothing (now : datetime) (s : store)
    (quote_id : Z) :
  let s' := snd (accept_quote now quote_id s) in
  s' = s \/
  exists q,
    fetch_quote s quote_id = inr q /\
    rows (jobs s') =
      rows (jobs s)
      ++ [job_of_quote (strftime_seconds now) q (next_rowid Job.id (jobs s))] /\
    quote_row s' quote_id
      = Some (Quote.set_accepted (next_rowid Job.id (jobs s)) q).
Proof.
  intros s'. unfold s'.
  destruct (fetch_quote s quote_id) as [e|q] eqn:Hf.
  - left. unfold accept_quote. now rewrite Hf.
  - destruct (Quote.status q =? "Accepted")%string eqn:E1.
    { left. unfold accept_quote. now rewrite Hf, E1. }
    destruct (Quote.status q =? "Declined")%string eqn:E2.
    { left. unfold accept_quote. now rewrite Hf, E1, E2. }
    right. exists q. split; [reflexivity|].
    pose proof (accept_quote_open now s quote_id q Hf E1 E2) as Heq.
    cbv zeta in Heq. rewrite Heq. cbn [fst snd].
    split; [reflexivity|].
    apply fetch_quote_row in Hf. unfold quote_row in *.
    cbn [quotes with_quotes with_jobs].
    rewrite select_by_id_update_where by reflexivity.
    rewrite Hf. simpl.
    apply select_by_id_key in Hf. apply Z.eqb_eq in Hf. now rewrite Hf.
Qed.

(** C2, as the code has it.  On every quote row whose status is Accepted,
    [accept_quote] returns the database as it was: no job is created, and
    the status and the [job_id] of the quote are what they were.  When the
    client row of the quote exists, the call redirects to the job stored in
    the quote's [job_id]; when it does not, the call fails with the 404
    error "Quote not found". *)
Theorem accept_quote_on_accepted (now : datetime) (s : store) (quote_id : Z)
    (q : Quote.t) :
  quote_row s quote_id = Some q ->
  Quote.status q = "Accepted" ->
  accept_quote now quote_id s
    = (if has_client s (Quote.client_id q)
       then RedirectResponse ("/jobs/" ++ str_opt_int (Quote.job_id q))%string
       else HTTPException 404 "Quote not found", s).
Proof.
  intros Hq Hst. unfold accept_quote.
  rewrite (fetch_quote_cases s quote_id q Hq).
  destruct (has_client s (Quote.client_id q)); [|reflexivity].
  rewrite Hst. reflexivity.
Qed.

(** Retrying: a second [accept_quote], at whatever later time, answers with
    the redirect of the first one and changes nothing. *)
Lemma accept_quote_retry (now later : datetime) (s : store) (quote_id : Z)
    (q : Quote.t) :
  fetch_quote s quote_id = inr q ->
  Quote.status q = "Draft" \/ Quote.status q = "Sent" ->
  accept_quote later quote_id (snd (accept_quote now quote_id s))
    = accept_quote now quote_id s.
Proof.
  intros Hf Hst.
  destruct (not_accepted_nor_declined q Hst) as [E1 E2].
  pose proof (accept_quote_open now s quote_id q Hf E1 E2) as Heq.
  cbv zeta in Heq. rewrite Heq. cbn [snd].
  set (new_id := next_rowid Job.id (jobs s)) in *.
  set (s1 := with_jobs _ s) in *.
  set (s2 := with_quotes _ s1).
  assert (Hf2 : fetch_quote s2 quote_id = inr (Quote.set_accepted new_id q)).
  { unfold fetch_quote in *. unfold s2, s1.
    cbn [quotes with_quotes with_jobs clients].
    rewrite select_by_id_update_where by reflexivity.
    destruct (select_by_id Quote.id quote_id (quotes s)) as [x|] eqn:Hx;
      [|discriminate].
    destruct (select_by_id Client.id (Quote.client_id x) (clients s)) eqn:Hc;
      [|discriminate].
    injection Hf as ->. simpl.
    apply select_by_id_key in Hx. apply Z.eqb_eq in Hx. rewrite Hx.
    cbn [Quote.client_id Quote.set_accepted]. now rewrite Hc. }
  unfold accept_quote at 1. rewrite Hf2. reflexivity.
Qed.

End QuoteWorkflow.

Section DeleteFacts.
Context {A : Type} (key : A -> Z).

Lemma filter_keeps_all (p : A -> bool) (l : list A) :
  (forall x, In x l -> p x = true) -> filter p l = l.
Proof.
  induction l as [|x l IH]; intros H; simpl; [reflexivity|].
  rewrite (H x) by now left. f_equal. apply IH. intros y Hy. apply H.
  now right.
Qed.

(** Under the primary-key constraint, [DELETE ... WHERE id = ?] takes out
    the one row a lookup by that id finds, and keeps the rest in place. *)
Lemma delete_where_unique (i : Z) (t : table A) (r : A) :
  NoDup (map key (rows t)) ->
  select_by_id key i t = Some r ->
  exists before after,
    rows t = before ++ r :: after /\
    rows (delete_where (fun x => key x =? i) t) = before ++ after.
Proof.
  unfold select_by_id, delete_where. simpl.
  induction (rows t) as [|x l IH]; intros Hnd Hf; simpl in *; [discriminate|].
  inversion Hnd as [|? ? Hnotin Hnd']; subst.
  destruct (key x =? i) eqn:E.
  - injection Hf as <-. exists [], l. split; [reflexivity|]. simpl.
    apply filter_keeps_all. intros y Hy.
    apply negb_true_iff, Z.eqb_neq. intros Hk. apply Hnotin.
    apply Z.eqb_eq in E. rewrite E, <- Hk. now apply in_map.
  - destruct (IH Hnd' Hf) as [before [after [H1 H2]]].
    exists (x :: before), after. simpl. rewrite H2, H1. now split.
Qed.

End DeleteFacts.

Section Clients.
Context {RT : Runtime}.

Lemma job_count_pos (s : store) (client_id : Z) :
  (exists j, In j (rows (jobs s)) /\ Job.client_id j = client_id) ->
  (job_count s client_id >? 0) = true.
Proof.
  intros [j [Hin Hc]]. unfold job_count.
  assert (Hf : In j (filter (fun x => Job.client_id x =? client_id)
                            (rows (jobs s)))).
  { apply filter_In. split; [exact Hin | now apply Z.eqb_eq]. }
  destruct (filter _ (rows (jobs s))); [contradiction|].
  simpl List.length. apply Z.gtb_lt. lia.
Qed.

Lemma job_count_zero (s : store) (client_id : Z) :
  (forall j, In j (rows (jobs s)) -> Job.client_id j <> client_id) ->
  (job_count s client_id >? 0) = false.
Proof.
  intros H. unfold job_count.
  destruct (filter _ (rows (jobs s))) as [|j l] eqn:E; [reflexivity|].
  assert (Hin : In j (filter (fun x => Job.client_id x =? client_id)
                             (rows (jobs s)))) by (rewrite E; now left).
  apply filter_In in Hin. destruct Hin as [Hin Hc].
  apply Z.eqb_eq in Hc. now apply H in Hin.
Qed.

(** C8.  Deleting a client that at least one job references answers with
    the redirect to the client page carrying [error=has_jobs] and returns
    the database as it was.  Deleting a client that no job references
    takes exactly the row of that client out of the clients table, keeps
    the other client rows in place and leaves every other table as it
    was. *)
Theorem delete_client_guarded (s : store) (client_id : Z) (c : Client.t) :
  fetch_client s client_id = inr c ->
  NoDup (map Client.id (rows (clients s))) ->
  ((exists j, In j (rows (jobs s)) /\ Job.client_id j = client_id) ->
     delete_client client_id s
       = (RedirectResponse
            ("/clients/" ++ str_int client_id ++ "?error=has_jobs")%string,
          s)) /\
  ((forall j, In j (rows (jobs s)) -> Job.client_id j <> client_id) ->
     exists before after s',
       delete_client client_id s = (RedirectResponse "/clients", s') /\
       rows (clients s) = before ++ c :: after /\
       rows (clients s') = before ++ after /\
       seq (clients s') = seq (clients s) /\
       crews s' = crews s /\ members s' = members s /\ jobs s' = jobs s /\
       tasks s' = tasks s /\ quotes s' = quotes s /\
       payments s' = payments s /\ job_members s' = job_members s).
Proof.
  intros Hf Hnd. split.
  - intros Hj. unfold delete_client. rewrite Hf.
    now rewrite (job_count_pos s client_id Hj).
  - intros Hj. unfold delete_client. rewrite Hf.
    rewrite (job_count_zero s client_id Hj).
    apply fetch_client_row in Hf.
    destruct (delete_where_unique Client.id client_id (clients s) c Hnd Hf)
      as [before [after [H1 H2]]].
    exists before, after. eexists. split; [reflexivity|].
    cbn [clients with_clients crews members jobs tasks quotes payments
         job_members].
    rewrite H2. repeat split. exact H1.
Qed.

End Clients.

Section Billing.
Context {RT : Runtime}.

Lemma ge_actual_cost_or_zero (t : real) (job : Job.t) :
  real_ge t (actual_cost_or_zero job) = real_ge t (cost_due job).
Proof.
  unfold actual_cost_or_zero, cost_due.
  destruct (Job.actual_cost job) as [c|]; [|reflexivity].
  destruct (real_truthy c) eqn:E; [reflexivity|].
  symmetry. now apply real_falsy_ge.
Qed.

(** The query of the handler computes the sum of the payments of the
    job. *)
Lemma sum_paid_fold (job_id : Z) (acc : real) (pays : list Payment.t) :
  fold_left real_add
    (map Payment.amount (filter (fun p => Payment.job_id p =? job_id) pays))
    acc
  = sum_paid job_id acc pays.
Proof.
  revert acc. induction pays as [|p rest IH]; intros acc; simpl;
    [reflexivity|].
  destruct (Payment.job_id p =? job_id); simpl; apply IH.
Qed.

Lemma total_paid_is_sum (s : store) (job_id : Z) :
  total_paid s job_id = paid_for_job s job_id.
Proof. apply sum_paid_fold. Qed.

Lemma sum_paid_snoc (job_id : Z) (acc : real) (pays : list Payment.t)
    (p : Payment.t) :
  sum_paid job_id acc (pays ++ [p])
  = if Payment.job_id p =? job_id
    then real_add (sum_paid job_id acc pays) (Payment.amount p)
    else sum_paid job_id acc pays.
Proof.
  revert acc. induction pays as [|x rest IH]; intros acc; simpl.
  - destruct (Payment.job_id p =? job_id); reflexivity.
  - destruct (Payment.job_id x =? job_id); apply IH.
Qed.

(** C1, as the code has it.  On every job row whose status is Completed
    and whose client row exists, and with one of the four payment methods,
    [add_payment] appends exactly one payment row, for that job, with the
    amount, the method and the time of the call; the sum of the payments of
    the job grows by that amount and the sums of the other jobs stay.  If
    the sum of the payments of the job, the new one included, is at least
    the actual cost of the job (0 when it is NULL), the row of the job then
    has [invoice_status] Paid and [paid_at] the time of the call; if the
    sum is strictly below the cost, the jobs table is what it was.  No
    other table changes.  When the client row of the job does not exist,
    the call fails with the 404 error "Job not found" and changes
    nothing. *)
Theorem add_payment_settles (now : datetime) (s : store) (job_id : Z)
    (job : Job.t) (amount : real) (method : string) :
  job_row s job_id = Some job ->
  Job.status job = "Completed" ->
  str_in method allowed_methods = true ->
  let paid_at := (isoformat now ++ "Z")%string in
  let p :=
    Payment.mk (next_rowid Payment.id (payments s)) job_id amount method
               paid_at in
  let s' := snd (add_payment now job_id amount method s) in
  (has_client s (Job.client_id job) = true ->
     fst (add_payment now job_id amount method s)
       = RedirectResponse ("/jobs/" ++ str_int job_id ++ "/invoice")%string /\
     rows (payments s') = rows (payments s) ++ [p] /\
     paid_for_job s' job_id = real_add (paid_for_job s job_id) amount /\
     (forall i, i <> job_id -> paid_for_job s' i = paid_for_job s i) /\
     (real_ge (paid_for_job s' job_id) (cost_due job) = true ->
        exists j',
          job_row s' job_id = Some j' /\
          Job.invoice_status j' = Some "Paid" /\
          Job.paid_at j' = Some paid_at /\
          j' = Job.set_paid paid_at job) /\
     (real_lt (paid_for_job s' job_id) (cost_due job) = true ->
        jobs s' = jobs s) /\
     clients s' = clients s /\ crews s' = crews s /\
     members s' = members s /\ tasks s' = tasks s /\
     quotes s' = quotes s /\ job_members s' = job_members s) /\
  (has_client s (Job.client_id job) = false ->
     add_payment now job_id amount method s
       = (HTTPException 404 "Job not found", s)).
Proof.
  intros Hj Hst Hm paid_at p s'.
  pose proof (fetch_job_cases s job_id job Hj) as Hf. split.
  - intros Hc. rewrite Hc in Hf.
    unfold s', add_payment. rewrite Hf, Hst, String.eqb_refl. cbn [negb].
    rewrite Hm. cbn [negb]. fold paid_at.
    set (s1 := with_payments _ s).
    assert (Hrows : rows (payments s1) = rows (payments s) ++ [p])
      by reflexivity.
    assert (Hsum : paid_for_job s1 job_id
                   = real_add (paid_for_job s job_id) amount).
    { unfold paid_for_job. rewrite Hrows, sum_paid_snoc.
      cbn [Payment.job_id Payment.amount p]. now rewrite Z.eqb_refl. }
    assert (Hoth : forall i, i <> job_id ->
                             paid_for_job s1 i = paid_for_job s i).
    { intros i Hi. unfold paid_for_job. rewrite Hrows, sum_paid_snoc.
      cbn [Payment.job_id p].
      assert (E : (job_id =? i) = false) by (apply Z.eqb_neq; lia).
      now rewrite E. }
    rewrite ge_actual_cost_or_zero, total_paid_is_sum.
    destruct (real_ge (paid_for_job s1 job_id) (cost_due job)) eqn:Hge;
      cbn [fst snd].
    + split; [reflexivity|]. split; [exact Hrows|]. split; [exact Hsum|].
      split; [exact Hoth|]. split; [|split; [|repeat split]].
      * intros _. exists (Job.set_paid paid_at job). repeat split.
        unfold job_row in *. cbn [jobs with_jobs]. unfold s1.
        cbn [jobs with_payments].
        rewrite select_by_id_update_where by reflexivity.
        rewrite Hj. simpl.
        apply select_by_id_key in Hj. apply Z.eqb_eq in Hj. now rewrite Hj.
      * intros Hlt. apply real_lt_not_ge in Hlt.
        unfold paid_for_job in *. cbn [payments with_jobs] in Hlt.
        congruence.
    + split; [reflexivity|]. split; [exact Hrows|]. split; [exact Hsum|].
      split; [exact Hoth|]. split; [|split; [|repeat split]].
      * intros Hge'. congruence.
      * intros _. reflexivity.
  - intros Hc. rewrite Hc in Hf. unfold add_payment. now rewrite Hf.
Qed.

End Billing.

Section Traces.
Context {RT : Runtime}.

Ltac break_match :=
  match goal with
  | |- context [match ?x with _ => _ end] => destruct x eqn:?
  end.

Ltac close_effect :=
  first
    [ apply effect_none
    | solve [apply effect_insert; intros; repeat split]
    | solve [apply effect_update; intros; repeat split; auto]
    | eapply effect_complete; reflexivity
    | eapply effect_invoice_sent; reflexivity ].

(** Every handler changes the jobs table in one of the five ways. *)
Lemma handle_jobs_effect (now : datetime) (r : request) (s : store) :
  jobs_effect r (jobs s) (jobs (snd (handle now r s))).
Proof.
  destruct r; cbn [handle];
    unfold create_client, update_client, delete_client, create_crew,
      update_crew, delete_crew, create_member, update_member, delete_member,
      create_quote, accept_quote, decline_quote, send_quote, notify_customer,
      create_job, update_job, add_task, toggle_task, update_job_status,
      complete_job, mark_invoice_sent, add_payment;
    repeat break_match;
    cbn [snd jobs with_clients with_crews with_members with_jobs with_tasks
         with_quotes with_payments with_job_members];
    close_effect.
Qed.

(** A request other than [mark_invoice_sent] on the job keeps it paid. *)
Lemma handle_keeps_paid (now : datetime) (r : request) (s : store)
    (job_id : Z) :
  ~ sends_invoice job_id r ->
  is_paid s job_id -> is_paid (snd (handle now r s)) job_id.
Proof.
  intros Hr [j [Hj Hp]]. unfold is_paid, job_row in *.
  pose proof (handle_jobs_effect now r s) as E.
  destruct E as [| mk Hmk | p f Hf | i h c st Hc | i sent_at Hi].
  - now exists j.
  - exists j. split; [now apply select_by_id_insert_row | exact Hp].
  - exists (if p j then f j else j). split.
    + rewrite select_by_id_update_where by (intros x; apply Hf).
      now rewrite Hj.
    + destruct (p j); [|exact Hp].
      destruct (Hf j) as [_ [_ [_ [H | H]]]]; congruence.
  - exists (if Job.id j =? i then Job.set_completion st h c j else j). split.
    + rewrite select_by_id_update_where by reflexivity. now rewrite Hj.
    + destruct (Job.id j =? i); exact Hp.
  - exists j. split; [|exact Hp].
    apply select_by_id_update_skip; [reflexivity | exact Hj |].
    apply Z.eqb_neq. intros Heq. apply Hr. rewrite Hi. simpl.
    apply select_by_id_key in Hj. congruence.
Qed.

(** A request other than [complete_job] on the job leaves it without
    actual figures. *)
Lemma handle_keeps_no_actuals (now : datetime) (r : request) (s : store)
    (job_id : Z) :
  ~ completes job_id r ->
  no_actuals (jobs s) job_id ->
  no_actuals (jobs (snd (handle now r s))) job_id.
Proof.
  intros Hr Hn.
  pose proof (handle_jobs_effect now r s) as E.
  destruct E as [| mk Hmk | p f Hf | i h c st Hc | i sent_at Hi];
    unfold no_actuals in *; cbn [rows insert_row update_where].
  - exact Hn.
  - intros j Hin Hid. apply in_app_or in Hin. destruct Hin as [Hin | Hin].
    + now apply Hn.
    + destruct Hin as [<- | []]. destruct (Hmk (next_rowid Job.id (jobs s)))
        as [_ [H1 [H2 _]]]. now split.
  - intros j Hin Hid. apply in_map_iff in Hin. destruct Hin as [x [<- Hx]].
    destruct (p x).
    + destruct (Hf x) as [H0 [H1 [H2 _]]]. rewrite H1, H2.
      apply Hn; [exact Hx | congruence].
    + now apply Hn.
  - intros j Hin Hid. apply in_map_iff in Hin. destruct Hin as [x [<- Hx]].
    destruct (Job.id x =? i) eqn:Ei.
    + exfalso. apply Hr. rewrite Hc. simpl. apply Z.eqb_eq in Ei.
      cbn [Job.id Job.set_completion] in Hid. congruence.
    + now apply Hn.
  - intros j Hin Hid. apply in_map_iff in Hin. destruct Hin as [x [<- Hx]].
    destruct (Job.id x =? i); [exact (Hn x Hx Hid) | now apply Hn].
Qed.

(** C3, as the code has it.  A job whose invoice is Paid stays Paid
    through every sequence of requests that holds no [mark_invoice_sent]
    on that job: payments, completion, status updates, edits and the rest
    never change a Paid invoice status. *)
Theorem paid_persists_without_resend (trace : list (datetime * request))
    (s : store) (job_id : Z) :
  is_paid s job_id ->
  (forall now r, In (now, r) trace -> ~ sends_invoice job_id r) ->
  is_paid (run trace s) job_id.
Proof.
  revert s. induction trace as [|[now r] rest IH]; intros s Hp Hno;
    simpl; [exact Hp|].
  apply IH.
  - apply handle_keeps_paid; [|exact Hp]. apply (Hno now). now left.
  - intros now' r' Hin. apply (Hno now'). now right.
Qed.

Lemma run_keeps_no_actuals (trace : list (datetime * request)) (s : store)
    (job_id : Z) :
  no_actuals (jobs s) job_id ->
  (forall now r, In (now, r) trace -> ~ completes job_id r) ->
  no_actuals (jobs (run trace s)) job_id.
Proof.
  revert s. induction trace as [|[now r] rest IH]; intros s Hn Hno;
    simpl; [exact Hn|].
  apply IH.
  - apply handle_keeps_no_actuals; [|exact Hn]. apply (Hno now). now left.
  - intros now' r' Hin. apply (Hno now'). now right.
Qed.

(** C7, as the code has it.  In the database reached from the empty one
    by any sequence of requests, a job on which that sequence holds no
    [complete_job] has [actual_hours] and [actual_cost] NULL:
    [complete_job] is their only writer. *)
Theorem actuals_only_from_complete (trace : list (datetime * request))
    (j : Job.t) :
  In j (rows (jobs (run trace empty_store))) ->
  (forall now r, In (now, r) trace -> ~ completes (Job.id j) r) ->
  Job.actual_hours j = None /\ Job.actual_cost j = None.
Proof.
  intros Hin Hno.
  apply (run_keeps_no_actuals trace empty_store (Job.id j)); auto.
  intros x [].
Qed.

End Traces.

Section MissingRows.
Context {RT : Runtime}.

Lemma update_where_no_match {A : Type} (p : A -> bool) (f : A -> A)
    (t : table A) :
  (forall r, In r (rows t) -> p r = false) -> update_where p f t = t.
Proof.
  destruct t as [l n]. unfold update_where. simpl. intros H. f_equal.
  induction l as [|x l IH]; simpl; [reflexivity|].
  rewrite (H x) by now left. f_equal. apply IH. intros r Hr. apply H.
  now right.
Qed.

Lemma with_jobs_same (s : store) : with_jobs (jobs s) s = s.
Proof. now destruct s. Qed.

(** [update_job_status] and [complete_job] never look the job up: on an id
    that no job row has they answer with the redirect to the job page, as
    on success, and write nothing. *)
Lemma status_writes_skip_lookup (s : store) (job_id : Z) (h c : real)
    (st : string) :
  job_row s job_id = None ->
  complete_job job_id h c st s
    = (RedirectResponse ("/jobs/" ++ str_int job_id)%string, s) /\
  (str_in st allowed_statuses = true ->
   update_job_status job_id st s
     = (RedirectResponse ("/jobs/" ++ str_int job_id)%string, s)).
Proof.
  intros Hn.
  assert (Hno : forall f,
             update_where (fun j => Job.id j =? job_id) f (jobs s) = jobs s).
  { intros f. apply update_where_no_match. intros r Hr.
    apply Z.eqb_neq. now apply (select_by_id_none Job.id job_id (jobs s)). }
  split.
  - unfold complete_job. now rewrite Hno, with_jobs_same.
  - intros Hst. unfold update_job_status. rewrite Hst. cbn [negb].
    now rewrite Hno, with_jobs_same.
Qed.

End MissingRows.

Section PrimaryKeys.
Context {A : Type} (key : A -> Z).

Lemma insert_row_unique (mk : Z -> A) (t : table A) :
  (forall i, key (mk i) = i) ->
  NoDup (map key (rows t)) ->
  NoDup (map key (rows (insert_row key mk t))).
Proof.
  intros Hmk Hnd. unfold insert_row. cbn [rows]. rewrite map_app. simpl.
  apply NoDup_app; [exact Hnd | repeat constructor; intros [] |].
  intros x Hx [Hx' | []]. rewrite Hmk in Hx'. subst x.
  apply in_map_iff in Hx. destruct Hx as [r [Hr Hin]].
  apply (next_rowid_fresh key) in Hin. lia.
Qed.

Lemma update_where_unique (p : A -> bool) (f : A -> A) (t : table A) :
  (forall r, key (f r) = key r) ->
  NoDup (map key (rows t)) ->
  NoDup (map key (rows (update_where p f t))).
Proof.
  intros Hk Hnd. unfold update_where. cbn [rows]. rewrite map_map.
  erewrite map_ext; [exact Hnd|].
  intros r. simpl. destruct (p r); [apply Hk | reflexivity].
Qed.

Lemma delete_where_keeps_unique (p : A -> bool) (t : table A) :
  NoDup (map key (rows t)) ->
  NoDup (map key (rows (delete_where p t))).
Proof.
  unfold delete_where. cbn [rows].
  induction (rows t) as [|x l IH]; intros Hnd; simpl; [constructor|].
  inversion Hnd as [|? ? Hnotin Hnd']; subst.
  destruct (negb (p x)); simpl; [|now apply IH].
  constructor; [|now apply IH].
  intros Hin. apply Hnotin. apply in_map_iff in Hin.
  destruct Hin as [r [Hr Hin]]. apply filter_In in Hin.
  rewrite <- Hr. apply in_map. tauto.
Qed.

End PrimaryKeys.

Section ReachableKeys.
Context {RT : Runtime}.

Ltac break_match :=
  match goal with
  | |- context [match ?x with _ => _ end] => destruct x eqn:?
  end.

(** The client ids stay pairwise distinct, as the primary key demands. *)
Lemma handle_keeps_client_ids_unique (now : datetime) (r : request)
    (s : store) :
  NoDup (map Client.id (rows (clients s))) ->
  NoDup (map Client.id (rows (clients (snd (handle now r s))))).
Proof.
  intros H.
  destruct r; cbn [handle];
    unfold create_client, update_client, delete_client, create_crew,
      update_crew, delete_crew, create_member, update_member, delete_member,
      create_quote, accept_quote, decline_quote, send_quote, notify_customer,
      create_job, update_job, add_task, toggle_task, update_job_status,
      complete_job, mark_invoice_sent, add_payment;
    repeat break_match;
    cbn [snd clients with_clients with_crews with_members with_jobs
         with_tasks with_quotes with_payments with_job_members];
    first
      [ exact H
      | apply insert_row_unique; [reflexivity | exact H]
      | apply update_where_unique; [reflexivity | exact H]
      | apply delete_where_keeps_unique; exact H ].
Qed.

Lemma reachable_client_ids_unique (s : store) :
  reachable s -> NoDup (map Client.id (rows (clients s))).
Proof.
  intros [trace <-].
  assert (G : forall s0, NoDup (map Client.id (rows (clients s0))) ->
                         NoDup (map Client.id (rows (clients (run trace s0))))).
  { induction trace as [|[now r] rest IH]; intros s0 H0; simpl; [exact H0|].
    apply IH. now apply handle_keeps_client_ids_unique. }
  apply G. constructor.
Qed.

End ReachableKeys.

(** ** The scenarios, checked on the worked databases *)

(** The first payment of 100 against a cost of 150 leaves the invoice
    status NULL. *)
Example first_payment_not_enough :
  option_map Job.invoice_status (job_row ex_part_paid 1) = Some None /\
  total_paid ex_part_paid 1 = 100%Q.
Proof. split; reflexivity. Qed.

(** The second payment of 50 reaches the cost: the invoice is Paid. *)
(** The second payment of 50 reaches the cost: the invoice is Paid.  The
    same payment on the completed job without client row is refused. *)
Lemma add_payment_settles_witness :
  is_paid ex_paid 1 /\
  paid_for_job ex_paid 1 = 150%Q /\
  List.length (rows (payments ex_paid))
    = S (List.length (rows (payments ex_part_paid))) /\
  add_payment ex_now 1 50%Q "Card" ex_stray_completed
    = (HTTPException 404 "Job not found", ex_stray_completed).
Proof.
  eassert (Hj : job_row ex_part_paid 1 = Some _) by reflexivity.
  pose proof (add_payment_settles ex_now ex_part_paid 1 _ 50%Q "Card" Hj
                                  eq_refl eq_refl) as T.
  cbv zeta in T. destruct T as [T _].
  destruct (T eq_refl) as [_ [Hrows [Hsum [_ [Hpaid _]]]]].
  eassert (Hj2 : job_row ex_stray_completed 1 = Some _) by reflexivity.
  pose proof (add_payment_settles ex_now ex_stray_completed 1 _ 50%Q "Card"
                                  Hj2 eq_refl eq_refl) as T2.
  cbv zeta in T2. destruct T2 as [_ T2].
  change ex_paid
    with (snd (add_payment ex_now 1 50%Q "Card" ex_part_paid)).
  split; [|split; [|split]].
  - destruct (Hpaid eq_refl) as [j' [H1 [H2 _]]]. exists j'. now split.
  - rewrite Hsum. reflexivity.
  - rewrite Hrows, length_app. simpl. lia.
  - exact (T2 eq_refl).
Defined.

Lemma accept_quote_on_accepted_witness :
  accept_quote "2026-03-09T12:00:00" 1 ex_accepted
    = (RedirectResponse "/jobs/1", ex_accepted) /\
  accept_quote "2026-03-09T12:00:00" 1 ex_stray_accepted
    = (HTTPException 404 "Quote not found", ex_stray_accepted).
Proof.
  eassert (H1 : quote_row ex_accepted 1 = Some _) by reflexivity.
  eassert (H2 : quote_row ex_stray_accepted 1 = Some _) by reflexivity.
  split.
  - exact (accept_quote_on_accepted "2026-03-09T12:00:00" ex_accepted 1 _
             H1 eq_refl).
  - exact (accept_quote_on_accepted "2026-03-09T12:00:00" ex_stray_accepted
             1 _ H2 eq_refl).
Defined.

Lemma accept_quote_outcomes_witness :
  fst (accept_quote ex_now 1 ex_quoted) = RedirectResponse "/jobs/1" /\
  option_map Job.status (job_row ex_accepted 1) = Some "Scheduled" /\
  option_map Quote.job_id (quote_row ex_accepted 1) = Some (Some 1) /\
  accept_quote ex_now 1 ex_stray_quoted
    = (HTTPException 404 "Quote not found", ex_stray_quoted).
Proof.
  eassert (H1 : quote_row ex_quoted 1 = Some _) by reflexivity.
  pose proof (accept_quote_outcomes ex_now ex_quoted 1 _ H1
                                    (or_intror eq_refl)) as T.
  cbv zeta in T. destruct T as [T _]. destruct (T eq_refl) as [Hr _].
  eassert (H2 : quote_row ex_stray_quoted 1 = Some _) by reflexivity.
  pose proof (accept_quote_outcomes ex_now ex_stray_quoted 1 _ H2
                                    (or_intror eq_refl)) as T2.
  cbv zeta in T2. destruct T2 as [_ T2]. destruct (T2 eq_refl) as [H404 _].
  split; [exact Hr | split; [reflexivity | split; [reflexivity|]]].
  exact H404.
Defined.

Lemma invoice_ops_need_completed_witness :
  add_payment ex_now 1 40%Q "Bitcoin" ex_scheduled
    = (HTTPException 400 "Job must be completed first", ex_scheduled) /\
  mark_invoice_sent ex_now 1 ex_scheduled
    = (HTTPException 400 "Job must be completed first", ex_scheduled) /\
  add_payment ex_now 1 40%Q "Bitcoin" ex_completed
    = (HTTPException 400 "Invalid payment method", ex_completed) /\
  mark_invoice_sent ex_now 1 ex_stray_scheduled
    = (HTTPException 404 "Job not found", ex_stray_scheduled).
Proof.
  assert (Hne : "Scheduled" <> "Completed") by discriminate.
  eassert (Hj1 : job_row ex_scheduled 1 = Some _) by reflexivity.
  destruct (invoice_ops_need_completed ex_now ex_scheduled 1 _ 40%Q
              "Bitcoin" Hj1) as [T1 _].
  destruct (T1 Hne) as [Ha Hb].
  eassert (Hj2 : job_row ex_completed 1 = Some _) by reflexivity.
  destruct (invoice_ops_need_completed ex_now ex_completed 1 _ 40%Q
              "Bitcoin" Hj2) as [_ T2].
  eassert (Hj3 : job_row ex_stray_scheduled 1 = Some _) by reflexivity.
  destruct (invoice_ops_need_completed ex_now ex_stray_scheduled 1 _ 40%Q
              "Bitcoin" Hj3) as [T3 _].
  destruct (T3 Hne) as [_ Hd].
  split; [exact Ha | split; [exact Hb | split; [exact (T2 eq_refl)|]]].
  exact Hd.
Defined.

Lemma update_job_on_completed_witness :
  update_job 1 1 "Mow and edge" "2026-03-05T08:00:00" "" None (Some [3; 4])
             3%Q 200%Q ex_completed
    = (HTTPException 400 "Cannot edit a completed job", ex_completed) /\
  update_job 1 1 "Mow and edge" "2026-03-05T08:00:00" "" None (Some [3; 4])
             3%Q 200%Q ex_stray_completed
    = (HTTPException 404 "Job not found", ex_stray_completed).
Proof.
  eassert (H1 : job_row ex_completed 1 = Some _) by reflexivity.
  eassert (H2 : job_row ex_stray_completed 1 = Some _) by reflexivity.
  split.
  - exact (update_job_on_completed ex_completed 1 1 _
             "Mow and edge" "2026-03-05T08:00:00" "" None (Some [3; 4])
             3%Q 200%Q H1 eq_refl).
  - exact (update_job_on_completed ex_stray_completed 1 1 _
             "Mow and edge" "2026-03-05T08:00:00" "" None (Some [3; 4])
             3%Q 200%Q H2 eq_refl).
Defined.

Lemma complete_job_any_status_witness :
  fst (complete_job 1 2%Q 150%Q "Cancelled" ex_scheduled)
    = RedirectResponse "/jobs/1" /\
  option_map Job.status
    (job_row (snd (complete_job 1 2%Q 150%Q "Cancelled" ex_scheduled)) 1)
    = Some "Cancelled".
Proof.
  eassert (Hj : job_row ex_scheduled 1 = Some _) by reflexivity.
  pose proof (complete_job_any_status ex_scheduled 1 _ 2%Q 150%Q
                                      "Cancelled" Hj) as T.
  destruct T as [j' [Hr [Hrow [_ [Hst _]]]]].
  split; [exact Hr|]. rewrite Hrow. simpl. now rewrite Hst.
Defined.

Lemma delete_client_guarded_witness :
  delete_client 1 ex_scheduled
    = (RedirectResponse "/clients/1?error=has_jobs", ex_scheduled) /\
  rows (clients (snd (delete_client 1 ex_quoted))) = [] /\
  quotes (snd (delete_client 1 ex_quoted)) = quotes ex_quoted.
Proof.
  split.
  - eassert (Hf : fetch_client ex_scheduled 1 = inr _) by reflexivity.
    pose proof (delete_client_guarded ex_scheduled 1 _ Hf) as T.
    assert (Hnd : NoDup (map Client.id (rows (clients ex_scheduled))))
      by (repeat constructor; intros []).
    destruct (T Hnd) as [T1 _]. apply T1.
    eexists. split; [left; reflexivity | reflexivity].
  - eassert (Hf : fetch_client ex_quoted 1 = inr _) by reflexivity.
    pose proof (delete_client_guarded ex_quoted 1 _ Hf) as T.
    assert (Hnd : NoDup (map Client.id (rows (clients ex_quoted))))
      by (repeat constructor; intros []).
    destruct (T Hnd) as [_ T2].
    destruct T2 as [before [after [s' [Hd [H1 [H2 H3]]]]]].
    { intros j []. }
    rewrite Hd. cbn [snd]. split; [|apply H3].
    rewrite H2.
    assert (L : List.length (rows (clients ex_quoted)) = 1%nat)
      by reflexivity.
    rewrite H1, length_app in L. simpl in L.
    destruct before, after; simpl in L; try lia. reflexivity.
Defined.

Lemma paid_persists_without_resend_witness :
  is_paid (run ex_after_paid_trace ex_paid) 1.
Proof.
  apply paid_persists_without_resend.
  - eexists. split; reflexivity.
  - intros now r Hin. simpl in Hin.
    repeat (destruct Hin as [Hin | Hin];
            [injection Hin as _ <-; simpl; tauto|]).
    contradiction.
Defined.

Lemma actuals_only_from_complete_witness :
  exists j,
    In j (rows (jobs (run ex_started_trace empty_store))) /\
    Job.status j = "In progress" /\
    Job.actual_hours j = None /\ Job.actual_cost j = None.
Proof.
  eexists. split; [left; reflexivity|]. split; [reflexivity|].
  apply (actuals_only_from_complete ex_started_trace).
  - left. reflexivity.
  - intros now r Hin. simpl in Hin.
    repeat (destruct Hin as [Hin | Hin];
            [injection Hin as _ <-; simpl; tauto|]).
    contradiction.
Defined.

(** ** Where the code departs from the specification *)

(** C3 as stated fails: a paid job on which [mark_invoice_sent] is called
    again goes back to Sent. *)
Lemma paid_reverted_by_mark_invoice_sent :
  is_paid ex_paid 1 /\
  fst (mark_invoice_sent ex_now 1 ex_paid)
    = RedirectResponse "/jobs/1/invoice" /\
  option_map Job.invoice_status
    (job_row (run [(ex_now, MarkInvoiceSent 1)] ex_paid) 1)
    = Some (Some "Sent") /\
  ~ is_paid (run [(ex_now, MarkInvoiceSent 1)] ex_paid) 1.
Proof.
  split; [eexists; split; reflexivity|].
  split; [reflexivity|]. split; [reflexivity|].
  intros [j [Hj Hp]]. vm_compute in Hj. injection Hj as <-.
  discriminate Hp.
Qed.

(** C4 as stated fails: on a completed job [update_job_status] succeeds and
    rewrites the status. *)
Lemma completed_job_status_rewritten :
  option_map Job.status (job_row ex_completed 1) = Some "Completed" /\
  fst (update_job_status 1 "Scheduled" ex_completed)
    = RedirectResponse "/jobs/1" /\
  option_map Job.status
    (job_row (snd (update_job_status 1 "Scheduled" ex_completed)) 1)
    = Some "Scheduled".
Proof. repeat split. Qed.

(** C7 as stated fails: a reachable database holds a job that is Scheduled
    and carries actual hours and an actual cost. *)
Lemma scheduled_job_with_actuals :
  reachable (run ex_reopened_trace empty_store) /\
  exists j,
    In j (rows (jobs (run ex_reopened_trace empty_store))) /\
    Job.status j = "Scheduled" /\
    Job.actual_hours j = Some 2%Q /\ Job.actual_cost j = Some 150%Q.
Proof.
  split; [now exists ex_reopened_trace|].
  eexists. split; [left; reflexivity|]. repeat split.
Qed.

(** C1 as stated fails: a completed job whose client id no client has is
    reachable; [add_payment] answers 404 for it and appends nothing. *)
Lemma stray_completed_job_payment_refused :
  reachable ex_stray_completed /\
  option_map Job.status (job_row ex_stray_completed 1) = Some "Completed" /\
  add_payment ex_now 1 150%Q "Cash" ex_stray_completed
    = (HTTPException 404 "Job not found", ex_stray_completed) /\
  rows (payments (snd (add_payment ex_now 1 150%Q "Cash" ex_stray_completed)))
    = [].
Proof.
  split; [now exists ex_stray_completed_trace|]. repeat split.
Qed.

(** C2 as stated fails: an accepted quote whose client was deleted is
    reachable; [accept_quote] answers 404 for it instead of redirecting to
    the stored job. *)
Lemma stray_accepted_quote_not_found :
  reachable ex_stray_accepted /\
  option_map Quote.status (quote_row ex_stray_accepted 1) = Some "Accepted" /\
  option_map Quote.job_id (quote_row ex_stray_accepted 1) = Some (Some 1) /\
  accept_quote ex_now 1 ex_stray_accepted
    = (HTTPException 404 "Quote not found", ex_stray_accepted).
Proof.
  split; [now exists ex_stray_accepted_trace|]. repeat split.
Qed.

(** C5 as stated fails twice.  A sent quote whose client was deleted is
    reachable; [accept_quote] answers 404 for it and creates no job.  And
    on the sent quote of an existing client the first commit of
    [accept_quote] holds the new job while the quote is still Sent, without
    job reference. *)
Lemma stray_quote_not_accepted :
  reachable ex_stray_quoted /\
  option_map Quote.status (quote_row ex_stray_quoted 1) = Some "Sent" /\
  accept_quote ex_now 1 ex_stray_quoted
    = (HTTPException 404 "Quote not found", ex_stray_quoted) /\
  rows (jobs (snd (accept_quote ex_now 1 ex_stray_quoted))) = [] /\
  exists s1,
    accept_quote_first_commit ex_now 1 ex_quoted = Some s1 /\
    option_map Job.status (job_row s1 1) = Some "Scheduled" /\
    option_map Quote.status (quote_row s1 1) = Some "Sent" /\
    option_map Quote.job_id (quote_row s1 1) = Some None.
Proof.
  split; [now exists ex_stray_quoted_trace|].
  split; [reflexivity|]. split; [reflexivity|]. split; [reflexivity|].
  eexists. split; [reflexivity|]. repeat split.
Qed.

(** C6 as stated fails: a scheduled job whose client id no client has is
    reachable; [add_payment] and [mark_invoice_sent] answer 404 for it, not
    the 400 of a job that is not completed. *)
Lemma stray_job_invoice_ops_not_found :
  reachable ex_stray_scheduled /\
  option_map Job.status (job_row ex_stray_scheduled 1) = Some "Scheduled" /\
  add_payment ex_now 1 150%Q "Cash" ex_stray_scheduled
    = (HTTPException 404 "Job not found", ex_stray_scheduled) /\
  mark_invoice_sent ex_now 1 ex_stray_scheduled
    = (HTTPException 404 "Job not found", ex_stray_scheduled).
Proof.
  split; [now exists ex_stray_trace|]. repeat split.
Qed.

(** C9: on the empty database, where no job has id 7, [update_job_status]
    and [complete_job] answer with the redirect of a successful call
    instead of the 404 of [fetch_job], and [add_task] stores a task for
    the missing job. *)
Theorem missing_job_not_reported :
  update_job_status 7 "Completed" (@empty_store QRuntime)
    = (RedirectResponse "/jobs/7", empty_store) /\
  complete_job 7 2%Q 150%Q "Completed" (@empty_store QRuntime)
    = (RedirectResponse "/jobs/7", empty_store) /\
  notify_customer ex_now 7 (@empty_store QRuntime)
    = (HTTPException 404 "Job not found", empty_store) /\
  rows (tasks (snd (add_task 7 "Rake the leaves" (@empty_store QRuntime))))
    = [Task.mk 1 7 "Rake the leaves" 0].
Proof. repeat split. Qed.

(** ** Further properties of the handlers *)

Section MoreTableFacts.
Context {A : Type} (key : A -> Z).

(** An update of the row with one key is invisible to a lookup by another
    key. *)
Lemma select_by_id_update_other (i k : Z) (f : A -> A) (t : table A) :
  (forall x, key (f x) = key x) ->
  i <> k ->
  select_by_id key i (update_where (fun r => key r =? k) f t)
    = select_by_id key i t.
Proof.
  intros Hk Hne. rewrite select_by_id_update_where by exact Hk.
  destruct (select_by_id key i t) as [r|] eqn:E; [|reflexivity].
  simpl. apply select_by_id_key in E.
  assert (Hf : (key r =? k) = false) by (apply Z.eqb_neq; lia).
  now rewrite Hf.
Qed.

(** An update of the row a lookup finds, keeping its key. *)
Lemma select_by_id_update_same (i : Z) (f : A -> A) (t : table A) (r : A) :
  (forall x, key (f x) = key x) ->
  select_by_id key i t = Some r ->
  select_by_id key i (update_where (fun x => key x =? i) f t) = Some (f r).
Proof.
  intros Hk Hs. rewrite select_by_id_update_where by exact Hk.
  rewrite Hs. simpl. apply select_by_id_key in Hs.
  apply Z.eqb_eq in Hs. now rewrite Hs.
Qed.

(** A lookup by the rowid just handed out finds the inserted row. *)
Lemma select_by_id_inserted (mk : Z -> A) (t : table A) :
  (forall i, key (mk i) = i) ->
  select_by_id key (next_rowid key t) (insert_row key mk t)
    = Some (mk (next_rowid key t)).
Proof.
  intros Hmk. unfold select_by_id, insert_row. cbn [rows].
  assert (H : forall r, In r (rows t) -> (key r =? next_rowid key t) = false).
  { intros r Hr. apply Z.eqb_neq. apply (next_rowid_fresh key) in Hr. lia. }
  induction (rows t) as [|x l IH]; simpl.
  - now rewrite Hmk, Z.eqb_refl.
  - rewrite (H x) by now left. apply IH. intros r Hr. apply H. now right.
Qed.

(** A lookup that finds nothing below the new rowid still finds nothing
    there after an insert. *)
Lemma select_by_id_insert_other (i : Z) (mk : Z -> A) (t : table A) :
  (forall k, key (mk k) = k) ->
  i <> next_rowid key t ->
  select_by_id key i (insert_row key mk t) = select_by_id key i t.
Proof.
  intros Hmk Hne. unfold select_by_id, insert_row. cbn [rows].
  induction (rows t) as [|x l IH]; simpl.
  - rewrite Hmk.
    assert (E : (next_rowid key t =? i) = false) by (apply Z.eqb_neq; lia).
    now rewrite E.
  - destruct (key x =? i); [reflexivity | exact IH].
Qed.

(** Under the primary key, the row a lookup finds is the only row with that
    key. *)
Lemma select_by_id_only (i : Z) (t : table A) (r x : A) :
  NoDup (map key (rows t)) ->
  select_by_id key i t = Some r ->
  In x (rows t) -> key x = i -> x = r.
Proof.
  unfold select_by_id.
  induction (rows t) as [|y l IH]; intros Hnd Hs Hin Hk; simpl in *;
    [contradiction|].
  inversion Hnd as [|? ? Hnotin Hnd']; subst.
  destruct (key y =? key x) eqn:E.
  - injection Hs as <-. destruct Hin as [-> | Hin]; [reflexivity|].
    exfalso. apply Hnotin. apply Z.eqb_eq in E. rewrite E.
    now apply in_map.
  - destruct Hin as [-> | Hin].
    + rewrite Z.eqb_refl in E. discriminate.
    + now apply IH.
Qed.

End MoreTableFacts.

Section QuoteMachine.
Context {RT : Runtime}.

(** X1.  [send_quote] moves a Draft quote to Sent, touching neither its
    other columns nor any other quote or table; on a quote in any other
    status it fails with a 400 error and changes nothing. *)
Theorem send_quote_transition (s : store) (quote_id : Z) (q : Quote.t) :
  fetch_quote s quote_id = inr q ->
  (Quote.status q = "Draft" ->
     fst (send_quote quote_id s)
       = RedirectResponse ("/quotes/" ++ str_int quote_id)%string /\
     quote_row (snd (send_quote quote_id s)) quote_id
       = Some (Quote.set_status "Sent" q) /\
     (forall i, i <> quote_id ->
        quote_row (snd (send_quote quote_id s)) i = quote_row s i) /\
     snd (send_quote quote_id s)
       = with_quotes (quotes (snd (send_quote quote_id s))) s) /\
  (Quote.status q <> "Draft" ->
     send_quote quote_id s
       = (HTTPException 400 "Only draft quotes can be marked as sent", s)).
Proof.
  intros Hf. split.
  - intros Hst. unfold send_quote. rewrite Hf, Hst. cbn [String.eqb negb].
    simpl fst. simpl snd. apply fetch_quote_row in Hf. unfold quote_row in *.
    cbn [quotes with_quotes].
    split; [reflexivity|]. split; [|split; [|reflexivity]].
    + now apply select_by_id_update_same.
    + intros i Hi. now apply select_by_id_update_other.
  - intros Hst. apply eqb_neq_false in Hst.
    unfold send_quote. now rewrite Hf, Hst.
Qed.

Lemma draft_or_sent (q : Quote.t) :
  str_in (Quote.status q) ["Draft"; "Sent"] = true <->
  Quote.status q = "Draft" \/ Quote.status q = "Sent".
Proof.
  unfold str_in. simpl. rewrite !orb_true_iff, !String.eqb_eq. intuition.
  discriminate.
Qed.

(** X2.  [decline_quote] moves a Draft or Sent quote to Declined, touching
    neither its other columns nor any other quote or table; on a quote in
    any other status it fails with a 400 error and changes nothing. *)
Theorem decline_quote_transition (s : store) (quote_id : Z) (q : Quote.t) :
  fetch_quote s quote_id = inr q ->
  (Quote.status q = "Draft" \/ Quote.status q = "Sent" ->
     fst (decline_quote quote_id s)
       = RedirectResponse ("/quotes/" ++ str_int quote_id)%string /\
     quote_row (snd (decline_quote quote_id s)) quote_id
       = Some (Quote.set_status "Declined" q) /\
     (forall i, i <> quote_id ->
        quote_row (snd (decline_quote quote_id s)) i = quote_row s i) /\
     snd (decline_quote quote_id s)
       = with_quotes (quotes (snd (decline_quote quote_id s))) s) /\
  (Quote.status q <> "Draft" /\ Quote.status q <> "Sent" ->
     decline_quote quote_id s
       = (HTTPException 400 "Quote already accepted or declined", s)).
Proof.
  intros Hf. split.
  - intros Hst. apply draft_or_sent in Hst.
    unfold decline_quote. rewrite Hf, Hst. cbn [negb fst snd].
    apply fetch_quote_row in Hf. unfold quote_row in *.
    cbn [quotes with_quotes].
    split; [reflexivity|]. split; [|split; [|reflexivity]].
    + now apply select_by_id_update_same.
    + intros i Hi. now apply select_by_id_update_other.
  - intros [H1 H2].
    assert (Hst : str_in (Quote.status q) ["Draft"; "Sent"] = false).
    { destruct (str_in _ _) eqn:E; [|reflexivity].
      apply draft_or_sent in E. tauto. }
    unfold decline_quote. now rewrite Hf, Hst.
Qed.

(** The quote handlers fail on a quote that is Accepted or Declined, except
    that [accept_quote] answers an Accepted quote with its job: none of
    them writes. *)
Lemma terminal_quote_rejected (now : datetime) (s : store) (quote_id : Z)
    (q : Quote.t) :
  fetch_quote s quote_id = inr q ->
  Quote.status q = "Accepted" \/ Quote.status q = "Declined" ->
  snd (accept_quote now quote_id s) = s /\
  snd (decline_quote quote_id s) = s /\
  snd (send_quote quote_id s) = s /\
  (Quote.status q = "Declined" ->
   fst (accept_quote now quote_id s)
     = HTTPException 400 "Cannot accept a declined quote").
Proof.
  intros Hf Hst. unfold accept_quote, decline_quote, send_quote.
  rewrite Hf.
  destruct Hst as [-> | ->]; repeat split; intros H; discriminate H.
Qed.

End QuoteMachine.

Ltac break_match :=
  match goal with
  | |- context [match ?x with _ => _ end] => destruct x eqn:?
  end.

Ltac unfold_handlers :=
  cbn [handle];
  unfold create_client, update_client, delete_client, create_crew,
    update_crew, delete_crew, create_member, update_member, delete_member,
    create_quote, accept_quote, decline_quote, send_quote, notify_customer,
    create_job, update_job, add_task, toggle_task, update_job_status,
    complete_job, mark_invoice_sent, add_payment.

Ltac project_store :=
  cbn [fst snd clients crews members jobs tasks quotes payments job_members
       with_clients with_crews with_members with_jobs with_tasks
       with_quotes with_payments with_job_members].

Section QuoteTraces.
Context {RT : Runtime}.

(** No request rewrites the row of a quote that is Accepted or Declined. *)
Lemma handle_keeps_terminal_quote (now : datetime) (r : request) (s : store)
    (quote_id : Z) (q : Quote.t) :
  quote_row s quote_id = Some q ->
  Quote.status q = "Accepted" \/ Quote.status q = "Declined" ->
  quote_row (snd (handle now r s)) quote_id = Some q.
Proof.
  intros Hq Hst. unfold quote_row in *.
  destruct r; unfold_handlers; repeat break_match; project_store;
    try exact Hq;
    try (apply select_by_id_insert_row; exact Hq).
  all: match goal with
       | |- select_by_id _ _ (update_where (fun x => _ =? ?i) _ _) = _ =>
           destruct (Z.eq_dec quote_id i) as [-> | Hne];
           [| rewrite select_by_id_update_other by (reflexivity || exact Hne);
              exact Hq ]
       end.
  all: match goal with
       | H : fetch_quote _ _ = inr _ |- _ =>
           apply fetch_quote_row in H; unfold quote_row in H;
           rewrite Hq in H; injection H as <-
       end.
  all: destruct Hst as [Hst | Hst]; rewrite Hst in *; simpl in *;
    discriminate.
Qed.

(** X3.  Accepted and Declined are final: once a quote has one of these
    statuses, its row (status, job reference and every other column) is
    the same after any sequence of requests. *)
Theorem terminal_quote_frozen (trace : list (datetime * request))
    (s : store) (quote_id : Z) (q : Quote.t) :
  quote_row s quote_id = Some q ->
  Quote.status q = "Accepted" \/ Quote.status q = "Declined" ->
  quote_row (run trace s) quote_id = Some q.
Proof.
  revert s. induction trace as [|[now r] rest IH]; intros s Hq Hst;
    simpl; [exact Hq|].
  apply IH; [|exact Hst]. now apply handle_keeps_terminal_quote.
Qed.

(** X4.  [create_quote] for an existing client stores a Draft quote without
    job reference, with the description stripped, that [fetch_quote] then
    returns under the id named in the redirect; for a missing client it
    fails with 404 and stores nothing. *)
Theorem create_quote_round_trip (now : datetime) (s : store) (client_id : Z)
    (description : string) (hours cost : real) (valid_until : string) :
  let new_id := next_rowid Quote.id (quotes s) in
  let q := Quote.mk new_id client_id (strip description) hours cost "Draft"
             (Some (isoformat now ++ "Z")%string)
             (strip_or_none valid_until) None in
  let res := create_quote now client_id description hours cost valid_until s in
  (forall c, fetch_client s client_id = inr c ->
     fst res = RedirectResponse ("/quotes/" ++ str_int new_id)%string /\
     fetch_quote (snd res) new_id = inr q /\
     rows (quotes (snd res)) = rows (quotes s) ++ [q] /\
     snd res = with_quotes (quotes (snd res)) s) /\
  (select_by_id Client.id client_id (clients s) = None ->
     res = (HTTPException 404 "Client not found", s)).
Proof.
  intros new_id q res. subst new_id q res. unfold create_quote. split.
  - intros c Hc. rewrite Hc. project_store.
    split; [reflexivity|]. split; [|split; reflexivity].
    unfold fetch_quote. project_store.
    rewrite (select_by_id_inserted Quote.id) by reflexivity.
    cbn [Quote.client_id]. apply fetch_client_row in Hc. now rewrite Hc.
  - intros Hn. unfold fetch_client. now rewrite Hn.
Qed.

(** X5.  [delete_client] looks at jobs only.  Deleting the client of a
    quote (a client without jobs) keeps the quote row, but the quote can no
    longer be fetched: [fetch_quote], and with it accept, decline and send,
    answer 404. *)
Theorem delete_client_orphans_quote (now : datetime) (s : store)
    (quote_id : Z) (q : Quote.t) :
  fetch_quote s quote_id = inr q ->
  (forall j, In j (rows (jobs s)) -> Job.client_id j <> Quote.client_id q) ->
  let s' := snd (delete_client (Quote.client_id q) s) in
  fst (delete_client (Quote.client_id q) s) = RedirectResponse "/clients" /\
  quote_row s' quote_id = Some q /\
  fetch_quote s' quote_id = inl (HTTPException 404 "Quote not found") /\
  accept_quote now quote_id s' = (HTTPException 404 "Quote not found", s') /\
  decline_quote quote_id s' = (HTTPException 404 "Quote not found", s') /\
  send_quote quote_id s' = (HTTPException 404 "Quote not found", s').
Proof.
  intros Hf Hj s'.
  assert (Hc : exists c, fetch_client s (Quote.client_id q) = inr c).
  { unfold fetch_quote, fetch_client in *.
    destruct (select_by_id Quote.id quote_id (quotes s)) as [x|];
      [|discriminate].
    destruct (select_by_id Client.id (Quote.client_id x) (clients s)) eqn:E;
      [|discriminate].
    injection Hf as ->. rewrite E. eauto. }
  destruct Hc as [c Hc].
  assert (Hd : delete_client (Quote.client_id q) s
               = (RedirectResponse "/clients",
                  with_clients
                    (delete_where (fun c => Client.id c =? Quote.client_id q)
                       (clients s)) s)).
  { unfold delete_client. rewrite Hc.
    now rewrite (job_count_zero s (Quote.client_id q) Hj). }
  unfold s'. rewrite Hd. project_store.
  apply fetch_quote_row in Hf. unfold quote_row in *.
  assert (Hq : fetch_quote
                 (with_clients
                    (delete_where (fun c => Client.id c =? Quote.client_id q)
                       (clients s)) s) quote_id
               = inl (HTTPException 404 "Quote not found")).
  { unfold fetch_quote. project_store. rewrite Hf.
    destruct (select_by_id Client.id (Quote.client_id q) (delete_where _ _))
      as [x|] eqn:E; [|reflexivity].
    exfalso. pose proof (select_by_id_key _ _ _ _ E) as Hk.
    apply select_by_id_in in E. unfold delete_where in E. cbn [rows] in E.
    apply filter_In in E. destruct E as [_ E].
    apply negb_true_iff, Z.eqb_neq in E. contradiction. }
  split; [reflexivity|]. split; [exact Hf|]. split; [exact Hq|].
  unfold accept_quote, decline_quote, send_quote. rewrite Hq.
  repeat split.
Qed.

End QuoteTraces.

Section RosterFacts.

Lemma filter_drops_all {A : Type} (p : A -> bool) (l : list A) :
  (forall x, In x l -> p x = false) -> filter p l = [].
Proof.
  induction l as [|x l IH]; intros H; simpl; [reflexivity|].
  rewrite (H x) by now left. apply IH. intros y Hy. apply H. now right.
Qed.

Lemma pair_present (jm : list (Z * Z)) (j m : Z) :
  existsb (fun p => (fst p =? j) && (snd p =? m)) jm = true <-> In (j, m) jm.
Proof.
  rewrite existsb_exists. split.
  - intros [[a b] [Hin H]]. simpl in H. apply andb_true_iff in H.
    destruct H as [H1 H2]. apply Z.eqb_eq in H1, H2. now subst.
  - intros Hin. exists (j, m). simpl. now rewrite !Z.eqb_refl.
Qed.

(** A member that is already on the roster of the job makes the inserts
    fail. *)
Lemma insert_job_members_clash (mids : list Z) (jm : list (Z * Z))
    (j m : Z) :
  In m mids -> In (j, m) jm -> insert_job_members jm j mids = None.
Proof.
  revert jm. induction mids as [|x rest IH]; intros jm Hm Hin;
    [contradiction|].
  simpl. destruct (existsb _ jm) eqn:E; [reflexivity|].
  destruct Hm as [-> | Hm].
  - apply pair_present in Hin. congruence.
  - apply IH; [exact Hm | apply in_or_app; now left].
Qed.

(** A member listed twice makes the inserts fail. *)
Lemma insert_job_members_duplicate (mids : list Z) (jm : list (Z * Z))
    (j : Z) :
  ~ NoDup mids -> insert_job_members jm j mids = None.
Proof.
  revert jm. induction mids as [|x rest IH]; intros jm Hnd.
  - exfalso. apply Hnd. constructor.
  - simpl. destruct (existsb _ jm) eqn:E; [reflexivity|].
    destruct (in_dec Z.eq_dec x rest) as [Hin | Hnin].
    + apply (insert_job_members_clash rest _ j x Hin).
      apply in_or_app. right. now left.
    + apply IH. intros Hr. apply Hnd. now constructor.
Qed.

(** Distinct members, none of them on the roster yet, are appended in
    order. *)
Lemma insert_job_members_fresh (mids : list Z) (jm : list (Z * Z)) (j : Z) :
  NoDup mids ->
  (forall m, In m mids -> ~ In (j, m) jm) ->
  insert_job_members jm j mids = Some (jm ++ map (pair j) mids).
Proof.
  revert jm. induction mids as [|x rest IH]; intros jm Hnd Hfresh; simpl.
  - now rewrite app_nil_r.
  - inversion Hnd as [|? ? Hx Hrest]; subst.
    destruct (existsb _ jm) eqn:E.
    + apply pair_present in E. exfalso. apply (Hfresh x); [now left | exact E].
    + rewrite IH; [now rewrite <- app_assoc | exact Hrest |].
      intros m Hm Hin. apply in_app_or in Hin. destruct Hin as [Hin | Hin].
      * apply (Hfresh m); [now right | exact Hin].
      * destruct Hin as [Heq | []]. injection Heq as <-. contradiction.
Qed.

Lemma roster_of_appended (jm : list (Z * Z)) (j : Z) (mids : list Z) :
  map snd (filter (fun p => fst p =? j) (jm ++ map (pair j) mids))
    = map snd (filter (fun p => fst p =? j) jm) ++ mids.
Proof.
  rewrite filter_app, map_app. f_equal.
  induction mids as [|m rest IH]; simpl; [reflexivity|].
  rewrite Z.eqb_refl. simpl. now rewrite IH.
Qed.

Lemma roster_of_other_appended (jm : list (Z * Z)) (i j : Z)
    (mids : list Z) :
  i <> j ->
  filter (fun p => fst p =? i) (jm ++ map (pair j) mids)
    = filter (fun p => fst p =? i) jm.
Proof.
  intros Hne. rewrite filter_app.
  assert (E : filter (fun p => fst p =? i) (map (pair j) mids) = []).
  { induction mids as [|m rest IH]; simpl; [reflexivity|].
    assert (Hf : (j =? i) = false) by (apply Z.eqb_neq; lia).
    now rewrite Hf. }
  now rewrite E, app_nil_r.
Qed.

Lemma roster_cleared (jm : list (Z * Z)) (j : Z) :
  filter (fun p => fst p =? j) (filter (fun p => negb (fst p =? j)) jm) = [].
Proof.
  induction jm as [|p rest IH]; simpl; [reflexivity|].
  destruct (fst p =? j) eqn:E; simpl; [exact IH|]. now rewrite E.
Qed.

Lemma roster_of_other_kept (jm : list (Z * Z)) (i j : Z) :
  i <> j ->
  filter (fun p => fst p =? i) (filter (fun p => negb (fst p =? j)) jm)
    = filter (fun p => fst p =? i) jm.
Proof.
  intros Hne. induction jm as [|p rest IH]; simpl; [reflexivity|].
  destruct (fst p =? j) eqn:E; simpl.
  - apply Z.eqb_eq in E.
    assert (Hf : (fst p =? i) = false) by (apply Z.eqb_neq; lia).
    now rewrite Hf.
  - destruct (fst p =? i); [now rewrite IH | exact IH].
Qed.

End RosterFacts.

Section JobEdits.
Context {RT : Runtime}.

(** What [update_job] computes when nothing stops it. *)
Lemma update_job_open (s : store) (job_id client_id : Z)
    (job : Job.t) (description scheduled_date crew : string)
    (crew_id : option Z) (member_ids : option (list Z)) (eh ec : real)
    (dt : datetime) :
  fetch_job s job_id = inr job ->
  Job.status job <> "Completed" ->
  fromisoformat scheduled_date = inl dt ->
  NoDup (member_ids_or_empty member_ids) ->
  update_job job_id client_id description scheduled_date crew crew_id
             member_ids eh ec s
  = (RedirectResponse ("/jobs/" ++ str_int job_id)%string,
     with_job_members
       (filter (fun p => negb (fst p =? job_id)) (job_members s)
        ++ map (pair job_id) (member_ids_or_empty member_ids))
       (with_jobs
          (update_where (fun j => Job.id j =? job_id)
             (Job.set_edit client_id (strip description) (isoformat dt)
                (strip crew) (crew_id_or_none crew_id) eh ec)
             (jobs s)) s)).
Proof.
  intros Hf Hst Hdt Hnd. apply eqb_neq_false in Hst. unfold update_job.
  rewrite Hf, Hst, Hdt. project_store.
  rewrite insert_job_members_fresh; [reflexivity | exact Hnd |].
  intros m _ Hin. apply filter_In in Hin. destruct Hin as [_ Hin].
  simpl in Hin. rewrite Z.eqb_refl in Hin. discriminate.
Qed.

(** X6.  A successful [update_job] (a job that is not Completed, a date
    that parses, member ids without repetition) replaces the roster of the
    job wholesale: afterwards the members on the roster of the job are
    exactly the submitted ones, whatever the roster was; the roster rows
    of the other jobs are untouched, and the job keeps its status, actual
    figures and invoice columns. *)
Theorem update_job_replaces_roster (s : store) (job_id client_id : Z)
    (job : Job.t) (description scheduled_date crew : string)
    (crew_id : option Z) (member_ids : option (list Z)) (eh ec : real)
    (dt : datetime) :
  fetch_job s job_id = inr job ->
  Job.status job <> "Completed" ->
  fromisoformat scheduled_date = inl dt ->
  NoDup (member_ids_or_empty member_ids) ->
  let res := update_job job_id client_id description scheduled_date crew
               crew_id member_ids eh ec s in
  let job' := Job.set_edit client_id (strip description) (isoformat dt)
                (strip crew) (crew_id_or_none crew_id) eh ec job in
  fst res = RedirectResponse ("/jobs/" ++ str_int job_id)%string /\
  (forall m, In (job_id, m) (job_members (snd res)) <->
             In m (member_ids_or_empty member_ids)) /\
  (forall i m, i <> job_id ->
     (In (i, m) (job_members (snd res)) <-> In (i, m) (job_members s))) /\
  job_row (snd res) job_id = Some job' /\
  Job.status job' = Job.status job /\
  Job.actual_hours job' = Job.actual_hours job /\
  Job.actual_cost job' = Job.actual_cost job /\
  Job.invoice_status job' = Job.invoice_status job.
Proof.
  intros Hf Hst Hdt Hnd res job'. subst res job'.
  rewrite (update_job_open s job_id client_id job description scheduled_date
             crew crew_id member_ids eh ec dt Hf Hst Hdt Hnd).
  project_store.
  split; [reflexivity|]. split; [|split; [|split; [|repeat split]]].
  - intros m. rewrite in_app_iff, filter_In, in_map_iff. cbn [fst].
    rewrite Z.eqb_refl. split.
    + intros [[_ H] | [x [Hx Hin]]]; [discriminate|].
      injection Hx as <-. exact Hin.
    + intros Hin. right. now exists m.
  - intros i m Hi. rewrite in_app_iff, filter_In, in_map_iff. cbn [fst].
    split.
    + intros [[H _] | [x [Hx _]]]; [exact H|].
      injection Hx as Hx _. congruence.
    + intros Hin. left. split; [exact Hin|].
      apply negb_true_iff, Z.eqb_neq. exact Hi.
  - apply fetch_job_row in Hf. unfold job_row in *.
    now apply select_by_id_update_same.
Qed.

(** X7.  When a member id is listed twice, [update_job] ends in an uncaught
    [sqlite3.IntegrityError] and the database is what it was: the edit of
    the columns and the clearing of the roster are rolled back with the
    failed insert. *)
Theorem update_job_duplicate_rolls_back (s : store) (job_id client_id : Z)
    (job : Job.t) (description scheduled_date crew : string)
    (crew_id : option Z) (member_ids : option (list Z)) (eh ec : real)
    (dt : datetime) :
  fetch_job s job_id = inr job ->
  Job.status job <> "Completed" ->
  fromisoformat scheduled_date = inl dt ->
  ~ NoDup (member_ids_or_empty member_ids) ->
  update_job job_id client_id description scheduled_date crew crew_id
             member_ids eh ec s
    = (Uncaught "sqlite3.IntegrityError", s).
Proof.
  intros Hf Hst Hdt Hnd. apply eqb_neq_false in Hst. unfold update_job.
  rewrite Hf, Hst, Hdt. project_store.
  now rewrite insert_job_members_duplicate.
Qed.

(** X8.  When a member id is listed twice, [create_job] ends in an uncaught
    [sqlite3.IntegrityError] too, but the job row, committed before the
    roster is written, stays: the database holds one more job, Scheduled,
    and no roster row for it. *)
Theorem create_job_duplicate_keeps_job (s : store) (client_id : Z)
    (description scheduled_date crew : string) (crew_id : option Z)
    (member_ids : option (list Z)) (eh ec : real) (dt : datetime) :
  fromisoformat scheduled_date = inl dt ->
  ~ NoDup (member_ids_or_empty member_ids) ->
  let res := create_job client_id description scheduled_date crew crew_id
               member_ids eh ec s in
  let new_id := next_rowid Job.id (jobs s) in
  fst res = Uncaught "sqlite3.IntegrityError" /\
  (exists j,
     rows (jobs (snd res)) = rows (jobs s) ++ [j] /\
     job_row (snd res) new_id = Some j /\
     Job.id j = new_id /\ Job.client_id j = client_id /\
     Job.status j = "Scheduled") /\
  job_members (snd res) = job_members s /\
  snd res = with_jobs (jobs (snd res)) s.
Proof.
  intros Hdt Hnd res new_id. subst res new_id. unfold create_job.
  rewrite Hdt. project_store.
  rewrite insert_job_members_duplicate by exact Hnd. project_store.
  split; [reflexivity|]. split; [|split; reflexivity].
  eexists. split; [reflexivity|]. split; [|repeat split].
  unfold job_row. project_store.
  now rewrite (select_by_id_inserted Job.id).
Qed.

(** X9.  A successful [create_job] (a date that parses, member ids without
    repetition, no roster row under the new id) appends one job with a
    fresh id, status Scheduled, no actual figures and no invoice state;
    afterwards the members on the roster of the new job are exactly the
    submitted ones, and the roster rows of the other jobs are untouched.
    The client id is not looked up. *)
Theorem create_job_stores (s : store) (client_id : Z)
    (description scheduled_date crew : string) (crew_id : option Z)
    (member_ids : option (list Z)) (eh ec : real) (dt : datetime) :
  fromisoformat scheduled_date = inl dt ->
  NoDup (member_ids_or_empty member_ids) ->
  (forall p, In p (job_members s) -> fst p <> next_rowid Job.id (jobs s)) ->
  let res := create_job client_id description scheduled_date crew crew_id
               member_ids eh ec s in
  let new_id := next_rowid Job.id (jobs s) in
  let j := Job.mk new_id client_id (strip description) (isoformat dt)
             (Some (strip crew)) (crew_id_or_none crew_id) (Some eh)
             (Some ec) None None "Scheduled" None None None None in
  fst res = RedirectResponse "/jobs" /\
  rows (jobs (snd res)) = rows (jobs s) ++ [j] /\
  (forall x, In x (rows (jobs s)) -> Job.id x < new_id) /\
  job_row (snd res) new_id = Some j /\
  (forall m, In (new_id, m) (job_members (snd res)) <->
             In m (member_ids_or_empty member_ids)) /\
  (forall i m, i <> new_id ->
     (In (i, m) (job_members (snd res)) <-> In (i, m) (job_members s))).
Proof.
  intros Hdt Hnd Hfresh res new_id j. subst res new_id j.
  unfold create_job. rewrite Hdt. project_store.
  rewrite insert_job_members_fresh; [project_store | exact Hnd |].
  - split; [reflexivity|]. split; [reflexivity|].
    split; [intros x Hx; now apply (next_rowid_fresh Job.id)|].
    unfold job_row. project_store.
    split; [now rewrite (select_by_id_inserted Job.id)|].
    change (seq (insert_row Job.id ?mk (jobs s)))
      with (next_rowid Job.id (jobs s)).
    split.
    + intros m. rewrite in_app_iff, in_map_iff. split.
      * intros [H | [x [Hx Hin]]].
        -- apply Hfresh in H. cbn [fst] in H. contradiction.
        -- injection Hx as <-. exact Hin.
      * intros Hin. right. now exists m.
    + intros i m Hi. rewrite in_app_iff, in_map_iff. split.
      * intros [H | [x [Hx _]]]; [exact H|].
        injection Hx as Hx _. congruence.
      * intros Hin. now left.
  - intros m _ Hin. now apply Hfresh in Hin.
Qed.

End JobEdits.

Section Overwrites.
Context {RT : Runtime}.

(** A job stays fetchable, with the rewritten row, when one of its columns
    other than the id and the client is rewritten. *)
Lemma fetch_job_after_update (s : store) (job_id : Z) (job : Job.t)
    (f : Job.t -> Job.t) :
  (forall j, Job.id (f j) = Job.id j) ->
  (forall j, Job.client_id (f j) = Job.client_id j) ->
  fetch_job s job_id = inr job ->
  fetch_job
    (with_jobs (update_where (fun j => Job.id j =? job_id) f (jobs s)) s)
    job_id = inr (f job).
Proof.
  intros Hid Hcl Hf. apply fetch_job_iff in Hf. destruct Hf as [Hj [c Hc]].
  apply fetch_job_iff. unfold job_row in *. project_store. split.
  - now apply select_by_id_update_same.
  - exists c. now rewrite Hcl.
Qed.

(** Writing the same rows twice with setters of which the second undoes
    the first is writing them once. *)
Lemma update_where_twice {A : Type} (p : A -> bool) (f g : A -> A)
    (t : table A) :
  (forall r, p r = true -> p (f r) = true /\ g (f r) = g r) ->
  update_where p g (update_where p f t) = update_where p g t.
Proof.
  intros H. unfold update_where. cbn [rows seq]. f_equal.
  rewrite map_map. apply map_ext. intros r.
  destruct (p r) eqn:E; [|now rewrite E].
  destruct (H r E) as [H1 H2]. now rewrite H1, H2.
Qed.

(** X10.  [notify_customer] stamps [on_my_way_sent_at] on any job it can
    fetch, completed or not, and leaves the other columns alone.  A repeated
    call overwrites the stamp: two calls leave the database that the later
    call alone would have left. *)
Theorem notify_customer_overwrites (now later : datetime) (s : store)
    (job_id : Z) (job : Job.t) :
  fetch_job s job_id = inr job ->
  job_row (snd (notify_customer now job_id s)) job_id
    = Some (Job.set_on_my_way (isoformat now ++ "Z")%string job) /\
  notify_customer later job_id (snd (notify_customer now job_id s))
    = notify_customer later job_id s.
Proof.
  intros Hf. split.
  - unfold notify_customer. rewrite Hf. project_store.
    apply fetch_job_row in Hf. unfold job_row in *. project_store.
    now apply select_by_id_update_same.
  - unfold notify_customer at 2. rewrite Hf. project_store.
    unfold notify_customer.
    rewrite (fetch_job_after_update s job_id job
               (Job.set_on_my_way (isoformat now ++ "Z")%string)
               (fun _ => eq_refl) (fun _ => eq_refl) Hf), Hf.
    project_store. f_equal. unfold with_jobs. project_store. f_equal.
    apply update_where_twice. intros r Hr. now split.
Qed.

(** X11.  [mark_invoice_sent] has no protection against sending twice: on a
    completed job a repeated call succeeds and overwrites
    [invoice_sent_at], and two calls leave the database that the later call
    alone would have left. *)
Theorem mark_invoice_sent_overwrites (now later : datetime) (s : store)
    (job_id : Z) (job : Job.t) :
  fetch_job s job_id = inr job ->
  Job.status job = "Completed" ->
  fst (mark_invoice_sent later job_id (snd (mark_invoice_sent now job_id s)))
    = RedirectResponse ("/jobs/" ++ str_int job_id ++ "/invoice")%string /\
  job_row
    (snd (mark_invoice_sent later job_id (snd (mark_invoice_sent now job_id s))))
    job_id
    = Some (Job.set_invoice_sent (isoformat later ++ "Z")%string job) /\
  mark_invoice_sent later job_id (snd (mark_invoice_sent now job_id s))
    = mark_invoice_sent later job_id s.
Proof.
  intros Hf Hst.
  assert (E : mark_invoice_sent later job_id
                (snd (mark_invoice_sent now job_id s))
              = mark_invoice_sent later job_id s).
  { unfold mark_invoice_sent at 2. rewrite Hf, Hst, String.eqb_refl.
    cbn [negb]. project_store. unfold mark_invoice_sent.
    rewrite (fetch_job_after_update s job_id job
               (Job.set_invoice_sent (isoformat now ++ "Z")%string)
               (fun _ => eq_refl) (fun _ => eq_refl) Hf), Hf.
    cbn [Job.status Job.set_invoice_sent]. rewrite Hst, String.eqb_refl.
    cbn [negb]. f_equal. unfold with_jobs. project_store. f_equal.
    apply update_where_twice. intros r Hr. now split. }
  rewrite E.
  destruct (mark_invoice_sent_writes later s job_id job Hf Hst) as [H1 H2].
  now repeat split.
Qed.

(** X12.  The lock on completed jobs is lifted by a status update: after
    [update_job_status] has set a completed job to another allowed status,
    [fetch_job] returns the job with that status and its actual figures
    and invoice columns as they were, and [update_job] edits it. *)
Theorem status_update_lifts_edit_lock (s : store) (job_id client_id : Z)
    (job : Job.t) (st description scheduled_date crew : string)
    (crew_id : option Z) (member_ids : option (list Z)) (eh ec : real)
    (dt : datetime) :
  fetch_job s job_id = inr job ->
  Job.status job = "Completed" ->
  str_in st allowed_statuses = true ->
  st <> "Completed" ->
  fromisoformat scheduled_date = inl dt ->
  NoDup (member_ids_or_empty member_ids) ->
  let s1 := snd (update_job_status job_id st s) in
  fetch_job s1 job_id = inr (Job.set_status st job) /\
  Job.actual_hours (Job.set_status st job) = Job.actual_hours job /\
  Job.actual_cost (Job.set_status st job) = Job.actual_cost job /\
  Job.invoice_status (Job.set_status st job) = Job.invoice_status job /\
  fst (update_job job_id client_id description scheduled_date crew crew_id
                  member_ids eh ec s1)
    = RedirectResponse ("/jobs/" ++ str_int job_id)%string.
Proof.
  intros Hf Hc Hst Hne Hdt Hnd s1.
  assert (Hf1 : fetch_job s1 job_id = inr (Job.set_status st job)).
  { unfold s1, update_job_status. rewrite Hst. cbn [negb snd].
    now apply fetch_job_after_update. }
  split; [exact Hf1|]. repeat split.
  now rewrite (update_job_open s1 job_id client_id _ description
                 scheduled_date crew crew_id member_ids eh ec dt Hf1 Hne
                 Hdt Hnd).
Qed.

Lemma toggle_task_once (s : store) (task_id : Z) (task : Task.t) :
  task_row s task_id = Some task ->
  Task.completed task = 0 \/ Task.completed task = 1 ->
  fst (toggle_task task_id s)
    = RedirectResponse ("/jobs/" ++ str_int (Task.job_id task))%string /\
  task_row (snd (toggle_task task_id s)) task_id
    = Some (Task.set_completed (1 - Task.completed task) task).
Proof.
  intros Ht Hc. unfold task_row in *.
  assert (H1 : toggle_task task_id s
               = (RedirectResponse
                    ("/jobs/" ++ str_int (Task.job_id task))%string,
                  with_tasks
                    (update_where (fun k => Task.id k =? task_id)
                       (Task.set_completed (1 - Task.completed task))
                       (tasks s)) s)).
  { unfold toggle_task. rewrite Ht. destruct Hc as [-> | ->]; reflexivity. }
  rewrite H1. project_store. split; [reflexivity|].
  now apply select_by_id_update_same.
Qed.

(** X13.  [toggle_task] flips the [completed] flag between 0 and 1 and
    redirects to the job of the task; toggling twice gives the task row
    back as it was.  On a task id that does not exist it fails with 404
    and changes nothing. *)
Theorem toggle_task_flips (s : store) (task_id : Z) :
  (forall task,
     task_row s task_id = Some task ->
     Task.completed task = 0 \/ Task.completed task = 1 ->
     fst (toggle_task task_id s)
       = RedirectResponse ("/jobs/" ++ str_int (Task.job_id task))%string /\
     task_row (snd (toggle_task task_id s)) task_id
       = Some (Task.set_completed (1 - Task.completed task) task) /\
     task_row (snd (toggle_task task_id (snd (toggle_task task_id s))))
       task_id = Some task) /\
  (task_row s task_id = None ->
     toggle_task task_id s = (HTTPException 404 "Task not found", s)).
Proof.
  split.
  - intros task Ht Hc.
    destruct (toggle_task_once s task_id task Ht Hc) as [H1 H2].
    split; [exact H1|]. split; [exact H2|].
    assert (Hc' : Task.completed
                    (Task.set_completed (1 - Task.completed task) task) = 0 \/
                  Task.completed
                    (Task.set_completed (1 - Task.completed task) task) = 1)
      by (cbn [Task.completed Task.set_completed]; lia).
    destruct (toggle_task_once _ task_id _ H2 Hc') as [_ H3].
    rewrite H3. f_equal. destruct task as [i j d c].
    cbn [Task.completed Task.set_completed Task.id Task.job_id
         Task.description] in *.
    unfold Task.set_completed. cbn [Task.id Task.job_id Task.description].
    f_equal. lia.
  - intros Hn. unfold toggle_task, task_row in *. now rewrite Hn.
Qed.

End Overwrites.

Section Deletions.
Context {RT : Runtime}.

Lemma select_by_id_deleted {A : Type} (key : A -> Z) (i : Z) (t : table A) :
  select_by_id key i (delete_where (fun r => key r =? i) t) = None.
Proof.
  unfold select_by_id, delete_where. cbn [rows].
  induction (rows t) as [|x l IH]; simpl; [reflexivity|].
  destruct (key x =? i) eqn:E; simpl; [exact IH|]. now rewrite E.
Qed.

Lemma select_by_id_delete_other {A : Type} (key : A -> Z) (i k : Z)
    (t : table A) :
  i <> k ->
  select_by_id key i (delete_where (fun r => key r =? k) t)
    = select_by_id key i t.
Proof.
  intros Hne. unfold select_by_id, delete_where. cbn [rows].
  induction (rows t) as [|x l IH]; simpl; [reflexivity|].
  destruct (key x =? k) eqn:E; simpl.
  - apply Z.eqb_eq in E.
    assert (Hf : (key x =? i) = false) by (apply Z.eqb_neq; lia).
    now rewrite Hf.
  - destruct (key x =? i); [reflexivity | exact IH].
Qed.

(** X14.  [delete_crew] removes the crew and sets [crew_id] to NULL on
    every job that referred to it.  No job is deleted or reordered, no job
    refers to the crew afterwards, and a job of another crew or of none is
    not touched.  Other crews stay. *)
Theorem delete_crew_nulls_references (s : store) (crew_id : Z) (c : Crew.t) :
  fetch_crew s crew_id = inr c ->
  let s' := snd (delete_crew crew_id s) in
  fst (delete_crew crew_id s) = RedirectResponse "/crews" /\
  select_by_id Crew.id crew_id (crews s') = None /\
  (forall i, i <> crew_id ->
     select_by_id Crew.id i (crews s') = select_by_id Crew.id i (crews s)) /\
  rows (jobs s')
    = map (fun j => if crew_id_is crew_id j then Job.clear_crew_id j else j)
          (rows (jobs s)) /\
  map Job.id (rows (jobs s')) = map Job.id (rows (jobs s)) /\
  (forall j, In j (rows (jobs s')) -> Job.crew_id j <> Some crew_id) /\
  (forall j, In j (rows (jobs s)) -> Job.crew_id j <> Some crew_id ->
             In j (rows (jobs s'))).
Proof.
  intros Hf s'. subst s'. unfold delete_crew. rewrite Hf. project_store.
  split; [reflexivity|]. split; [apply select_by_id_deleted|].
  split; [intros i Hi; now apply select_by_id_delete_other|].
  unfold update_where. cbn [rows]. split; [reflexivity|].
  split; [|split].
  - rewrite map_map. apply map_ext. intros j.
    destruct (crew_id_is crew_id j); reflexivity.
  - intros j Hin. apply in_map_iff in Hin. destruct Hin as [x [<- Hx]].
    destruct (crew_id_is crew_id x) eqn:E; [discriminate|].
    unfold crew_id_is in E. destruct (Job.crew_id x) as [k|]; [|discriminate].
    apply Z.eqb_neq in E. congruence.
  - intros j Hin Hne. apply in_map_iff. exists j. split; [|exact Hin].
    unfold crew_id_is. destruct (Job.crew_id j) as [k|]; [|reflexivity].
    assert (E : (k =? crew_id) = false) by (apply Z.eqb_neq; congruence).
    now rewrite E.
Qed.

(** X15.  [delete_member] removes the member and every roster row of the
    member, and nothing else: the roster rows of the other members stay in
    place and the jobs table is untouched. *)
Theorem delete_member_removes_roster_rows (s : store) (member_id : Z)
    (m : Member.t) :
  fetch_member s member_id = inr m ->
  let s' := snd (delete_member member_id s) in
  fst (delete_member member_id s) = RedirectResponse "/members" /\
  select_by_id Member.id member_id (members s') = None /\
  (forall i, i <> member_id ->
     select_by_id Member.id i (members s')
       = select_by_id Member.id i (members s)) /\
  (forall p, In p (job_members s') <->
             In p (job_members s) /\ snd p <> member_id) /\
  jobs s' = jobs s /\ clients s' = clients s /\ crews s' = crews s /\
  tasks s' = tasks s /\ quotes s' = quotes s /\ payments s' = payments s.
Proof.
  intros Hf s'. subst s'. unfold delete_member. rewrite Hf. project_store.
  split; [reflexivity|]. split; [apply select_by_id_deleted|].
  split; [intros i Hi; now apply select_by_id_delete_other|].
  split; [|repeat split].
  intros p. rewrite filter_In, negb_true_iff, Z.eqb_neq. reflexivity.
Qed.

(** X16.  Rowids are not handed out twice.  In a clients table whose ids
    are at most its sequence entry, the client created after another client
    was deleted gets an id above the deleted one, and the deleted id stays
    unknown. *)
Theorem client_id_not_reused (s : store) (client_id : Z) (c : Client.t)
    (name address phone email : string) :
  table_ok Client.id (clients s) ->
  fetch_client s client_id = inr c ->
  (forall j, In j (rows (jobs s)) -> Job.client_id j <> client_id) ->
  let s1 := snd (delete_client client_id s) in
  let s2 := snd (create_client name address phone email s1) in
  let new_id := next_rowid Client.id (clients s1) in
  client_id < new_id /\
  select_by_id Client.id new_id (clients s2)
    = Some (Client.mk new_id (strip name) (strip address) (strip phone)
                      (strip email)) /\
  fetch_client s2 client_id = inl (HTTPException 404 "Client not found").
Proof.
  intros [_ Hok] Hf Hj s1 s2 new_id. subst s1 s2 new_id.
  assert (Hd : delete_client client_id s
               = (RedirectResponse "/clients",
                  with_clients
                    (delete_where (fun c => Client.id c =? client_id)
                       (clients s)) s)).
  { unfold delete_client. rewrite Hf.
    now rewrite (job_count_zero s client_id Hj). }
  rewrite Hd. project_store. unfold create_client. project_store.
  apply fetch_client_row in Hf.
  pose proof (select_by_id_key _ _ _ _ Hf) as Hk.
  apply select_by_id_in in Hf. apply Hok in Hf.
  set (t1 := delete_where _ (clients s)).
  assert (Hlt : client_id < next_rowid Client.id t1).
  { unfold next_rowid. change (seq t1) with (seq (clients s)).
    destruct (max_rowid _); lia. }
  split; [exact Hlt|]. split.
  - now rewrite (select_by_id_inserted Client.id).
  - unfold fetch_client. project_store.
    rewrite (select_by_id_insert_other Client.id) by (reflexivity || lia).
    unfold t1. now rewrite select_by_id_deleted.
Qed.

End Deletions.

Section KeyInvariant.

Lemma table_ok_insert {A : Type} (key : A -> Z) (mk : Z -> A) (t : table A) :
  (forall i, key (mk i) = i) ->
  table_ok key t -> table_ok key (insert_row key mk t).
Proof.
  intros Hmk [Hnd Hok]. split; [now apply insert_row_unique|].
  assert (Hpos : 0 < next_rowid key t /\ seq t < next_rowid key t).
  { unfold next_rowid. destruct (max_rowid _) eqn:E; [|lia].
    destruct (rows t) as [|x l]; [discriminate E|].
    assert (0 < key x <= seq t) by (apply Hok; now left). lia. }
  intros r Hin. unfold insert_row in *. cbn [rows seq] in *.
  apply in_app_or in Hin. destruct Hin as [Hin | [<- | []]].
  - apply Hok in Hin. lia.
  - rewrite Hmk. lia.
Qed.

Lemma table_ok_update {A : Type} (key : A -> Z) (p : A -> bool) (f : A -> A)
    (t : table A) :
  (forall r, key (f r) = key r) ->
  table_ok key t -> table_ok key (update_where p f t).
Proof.
  intros Hk [Hnd Hok]. split; [now apply update_where_unique|].
  intros r Hin. unfold update_where in *. cbn [rows seq] in *.
  apply in_map_iff in Hin. destruct Hin as [x [<- Hx]].
  destruct (p x); [rewrite Hk|]; now apply Hok.
Qed.

Lemma table_ok_delete {A : Type} (key : A -> Z) (p : A -> bool)
    (t : table A) :
  table_ok key t -> table_ok key (delete_where p t).
Proof.
  intros [Hnd Hok]. split; [now apply delete_where_keeps_unique|].
  intros r Hin. unfold delete_where in *. cbn [rows seq] in *.
  apply filter_In in Hin. now apply Hok.
Qed.

Lemma insert_job_members_nodup (mids : list Z) (jm l : list (Z * Z))
    (j : Z) :
  insert_job_members jm j mids = Some l -> NoDup jm -> NoDup l.
Proof.
  revert jm. induction mids as [|m rest IH]; intros jm H Hnd; simpl in H.
  - now injection H as <-.
  - destruct (existsb _ jm) eqn:E; [discriminate|].
    apply (IH _ H). apply NoDup_app; [exact Hnd | repeat constructor |].
    + intros [].
    + intros x Hx [<- | []].
      apply pair_present in Hx. congruence.
Qed.

Lemma insert_job_members_in (mids : list Z) (jm l : list (Z * Z)) (j : Z)
    (p : Z * Z) :
  insert_job_members jm j mids = Some l -> In p l -> In p jm \/ fst p = j.
Proof.
  revert jm. induction mids as [|m rest IH]; intros jm H Hin; simpl in H.
  - injection H as <-. now left.
  - destruct (existsb _ jm); [discriminate|].
    destruct (IH _ H Hin) as [Hp | Hp]; [|now right].
    apply in_app_or in Hp. destruct Hp as [Hp | [<- | []]];
      [now left | now right].
Qed.

End KeyInvariant.

Section Integrity.
Context {RT : Runtime}.

Ltac keep_table :=
  first
    [ assumption
    | apply table_ok_insert; [reflexivity | assumption]
    | apply table_ok_update; [reflexivity | assumption]
    | apply table_ok_delete; assumption
    | apply table_ok_delete; apply table_ok_update;
        [reflexivity | assumption]
    | apply NoDup_filter; assumption
    | eapply insert_job_members_nodup;
        [eassumption | first [assumption | apply NoDup_filter; assumption]] ].

(** Every handler keeps the primary keys and the sequence entries. *)
Lemma handle_keeps_store_ok (now : datetime) (r : request) (s : store) :
  store_ok s -> store_ok (snd (handle now r s)).
Proof.
  unfold store_ok.
  intros (H1 & H2 & H3 & H4 & H5 & H6 & H7 & H8).
  destruct r; unfold_handlers; repeat break_match; project_store;
    (refine (conj _ (conj _ (conj _ (conj _ (conj _ (conj _ (conj _ _)))))));
     keep_table).
Qed.

Lemma run_keeps_store_ok (trace : list (datetime * request)) (s : store) :
  store_ok s -> store_ok (run trace s).
Proof.
  revert s. induction trace as [|[now r] rest IH]; intros s H; simpl;
    [exact H|].
  apply IH. now apply handle_keeps_store_ok.
Qed.

Lemma empty_table_ok {A : Type} (key : A -> Z) : table_ok key empty_table.
Proof. split; [constructor | intros r []]. Qed.

Lemma empty_store_ok : store_ok empty_store.
Proof.
  unfold store_ok, empty_store. project_store.
  refine (conj _ (conj _ (conj _ (conj _ (conj _ (conj _ (conj _ _)))))));
    first [apply empty_table_ok | constructor].
Qed.

(** X17.  In every database the application can reach, each of the seven
    tables with a rowid has pairwise distinct ids, all positive and at
    most the table's sequence entry, and no roster row occurs twice. *)
Theorem reachable_store_ok (s : store) : reachable s -> store_ok s.
Proof.
  intros [trace <-]. apply run_keeps_store_ok. apply empty_store_ok.
Qed.

End Integrity.

Section AppendOnly.
Context {RT : Runtime}.

(** No handler deletes a job or changes its id. *)
Lemma handle_keeps_job_row (now : datetime) (r : request) (s : store)
    (job_id : Z) :
  job_row s job_id <> None -> job_row (snd (handle now r s)) job_id <> None.
Proof.
  unfold job_row. intros H.
  destruct (select_by_id Job.id job_id (jobs s)) as [j|] eqn:Hj;
    [clear H | contradiction].
  pose proof (handle_jobs_effect now r s) as E.
  destruct E as [| mk Hmk | p f Hf | i h c st Hc | i sent_at Hi].
  - now rewrite Hj.
  - now rewrite (select_by_id_insert_row Job.id _ _ _ _ Hj).
  - rewrite select_by_id_update_where by (intros x; apply Hf).
    now rewrite Hj.
  - rewrite select_by_id_update_where by reflexivity. now rewrite Hj.
  - rewrite select_by_id_update_where by reflexivity. now rewrite Hj.
Qed.

Lemma handle_jobs_length (now : datetime) (r : request) (s : store) :
  (List.length (rows (jobs s))
   <= List.length (rows (jobs (snd (handle now r s)))))%nat.
Proof.
  pose proof (handle_jobs_effect now r s) as E.
  destruct E; unfold insert_row, update_where; cbn [rows];
    rewrite ?length_app, ?length_map; simpl; lia.
Qed.

(** X18.  Jobs are never deleted: a job id that the jobs table holds is
    still there, under the same id, after any sequence of requests, and
    the number of job rows never goes down. *)
Theorem jobs_never_deleted (trace : list (datetime * request)) (s : store)
    (job_id : Z) (j : Job.t) :
  job_row s job_id = Some j ->
  (exists j', job_row (run trace s) job_id = Some j' /\ Job.id j' = job_id) /\
  (List.length (rows (jobs s))
   <= List.length (rows (jobs (run trace s))))%nat.
Proof.
  intros Hj.
  assert (G : forall s0,
             job_row s0 job_id <> None ->
             job_row (run trace s0) job_id <> None /\
             (List.length (rows (jobs s0))
              <= List.length (rows (jobs (run trace s0))))%nat).
  { induction trace as [|[now r] rest IH]; intros s0 H0; simpl.
    - split; [exact H0 | lia].
    - destruct (IH _ (handle_keeps_job_row now r s0 job_id H0)) as [H1 H2].
      split; [exact H1|].
      pose proof (handle_jobs_length now r s0). lia. }
  destruct (G s) as [H1 H2]; [congruence|]. split; [|exact H2].
  destruct (job_row (run trace s) job_id) as [j'|] eqn:E; [|contradiction].
  exists j'. split; [reflexivity|]. now apply job_row_id in E.
Qed.

(** The payments table changes only by the insert of [add_payment], made
    for a job that [fetch_job] found completed. *)
Lemma handle_payments_effect (now : datetime) (r : request) (s : store) :
  payments (snd (handle now r s)) = payments s \/
  exists job_id amount method job,
    r = AddPayment job_id amount method /\
    fetch_job s job_id = inr job /\
    Job.status job = "Completed" /\
    str_in method allowed_methods = true /\
    payments (snd (handle now r s))
      = insert_row Payment.id
          (fun i => Payment.mk i job_id amount method
                               (isoformat now ++ "Z")%string)
          (payments s).
Proof.
  destruct r; try (left; unfold_handlers; repeat break_match; reflexivity).
  cbn [handle]. unfold add_payment.
  destruct (fetch_job s job_id) as [e|job] eqn:Hf; [now left|].
  destruct (Job.status job =? "Completed")%string eqn:Hst; cbn [negb];
    [|now left].
  destruct (str_in method allowed_methods) eqn:Hm; cbn [negb]; [|now left].
  right. exists job_id, amount, method, job. apply String.eqb_eq in Hst.
  repeat split; try assumption.
  break_match; reflexivity.
Qed.

(** X19.  Payments are append-only: after any sequence of requests the
    payments table starts with the rows it had, unchanged and in the same
    order; nothing updates or deletes a payment. *)
Theorem payments_append_only (trace : list (datetime * request))
    (s : store) :
  exists added,
    rows (payments (run trace s)) = rows (payments s) ++ added.
Proof.
  revert s. induction trace as [|[now r] rest IH]; intros s; simpl.
  - exists []. now rewrite app_nil_r.
  - destruct (IH (snd (handle now r s))) as [added Ha]. rewrite Ha.
    destruct (handle_payments_effect now r s)
      as [E | (i & a & m & job & _ & _ & _ & _ & E)]; rewrite E.
    + now exists added.
    + unfold insert_row. cbn [rows]. rewrite <- app_assoc. eauto.
Qed.

End AppendOnly.

Section QuoteIntegrity.
Context {RT : Runtime}.

Lemma quote_ok_mono (s s' : store) (q : Quote.t) :
  (forall i, job_row s i <> None -> job_row s' i <> None) ->
  quote_ok s q -> quote_ok s' q.
Proof.
  intros Hm [H1 H2]. split; [exact H1|].
  destruct (Quote.job_id q); [|exact H2].
  destruct H2 as [H2 H3]. split; [exact H2 | now apply Hm].
Qed.

(** A quote that is consistent and not Accepted stays consistent when its
    status becomes Sent or Declined. *)
Lemma quote_ok_set_status (s : store) (q : Quote.t) (st : string) :
  str_in st quote_statuses = true -> st <> "Accepted" ->
  Quote.status q <> "Accepted" ->
  quote_ok s q -> quote_ok s (Quote.set_status st q).
Proof.
  intros Hst Hne Hq [H1 H2]. unfold quote_ok.
  cbn [Quote.status Quote.job_id Quote.set_status].
  split; [exact Hst|].
  destruct (Quote.job_id q); [destruct H2; contradiction | exact Hne].
Qed.

Lemma quotes_ok_update_status (s : store) (quote_id : Z) (q : Quote.t)
    (st : string) :
  NoDup (map Quote.id (rows (quotes s))) ->
  quote_row s quote_id = Some q ->
  Quote.status q <> "Accepted" ->
  str_in st quote_statuses = true -> st <> "Accepted" ->
  quotes_ok s ->
  quotes_ok
    (with_quotes
       (update_where (fun x => Quote.id x =? quote_id) (Quote.set_status st)
          (quotes s)) s).
Proof.
  intros Hnd Hq Hna Hst Hne Hok x Hin.
  unfold update_where in Hin. project_store. cbn [rows] in Hin.
  apply in_map_iff in Hin. destruct Hin as [y [<- Hy]].
  destruct (Quote.id y =? quote_id) eqn:E.
  - apply Z.eqb_eq in E.
    assert (y = q) by (eapply (select_by_id_only Quote.id); eauto).
    subst y.
    apply (quote_ok_mono s); [intros i Hi; exact Hi|].
    apply quote_ok_set_status; auto.
  - apply (quote_ok_mono s); [intros i Hi; exact Hi | now apply Hok].
Qed.

(** Every handler keeps the quote rows consistent. *)
Lemma handle_keeps_quotes_ok (now : datetime) (r : request) (s : store) :
  store_ok s -> quotes_ok s -> quotes_ok (snd (handle now r s)).
Proof.
  intros Hs Hok.
  assert (Hnd : NoDup (map Quote.id (rows (quotes s))))
    by (destruct Hs as (_ & _ & _ & _ & _ & [H _] & _); exact H).
  pose proof (handle_keeps_job_row now r s) as Hmono.
  destruct r;
    try (match goal with
         | |- quotes_ok (snd (handle _ ?r0 _)) =>
             assert (E : quotes (snd (handle now r0 s)) = quotes s)
               by (unfold_handlers; repeat break_match; reflexivity)
         end;
         intros q Hin; rewrite E in Hin;
         apply (quote_ok_mono s); [exact Hmono | now apply Hok]).
  - (* create_quote *)
    clear Hmono. cbn [handle]. unfold create_quote.
    destruct (fetch_client s client_id); [exact Hok|].
    intros q Hin. project_store. unfold insert_row in Hin. cbn [rows] in Hin.
    apply in_app_or in Hin. destruct Hin as [Hin | [<- | []]].
    + exact (Hok q Hin).
    + split; [reflexivity | discriminate].
  - (* accept_quote *)
    cbn [handle] in *.
    destruct (fetch_quote s quote_id) as [e|q] eqn:Hf;
      [unfold accept_quote; rewrite Hf; exact Hok|].
    destruct (Quote.status q =? "Accepted")%string eqn:E1;
      [unfold accept_quote; rewrite Hf, E1; exact Hok|].
    destruct (Quote.status q =? "Declined")%string eqn:E2;
      [unfold accept_quote; rewrite Hf, E1, E2; exact Hok|].
    pose proof (accept_quote_open now s quote_id q Hf E1 E2) as Heq.
    cbv zeta in Heq. rewrite Heq in *. cbn [snd] in *.
    intros x Hin. project_store. unfold update_where in Hin.
    cbn [rows] in Hin. apply in_map_iff in Hin.
    destruct Hin as [y [<- Hy]]. project_store.
    destruct (Quote.id y =? quote_id).
    + split; [reflexivity|]. cbn [Quote.job_id Quote.set_accepted].
      split; [reflexivity|]. unfold job_row. project_store.
      now rewrite (select_by_id_inserted Job.id).
    + apply (quote_ok_mono s); [exact Hmono | now apply Hok].
  - (* decline_quote *)
    clear Hmono. cbn [handle]. unfold decline_quote.
    destruct (fetch_quote s quote_id) as [e|q] eqn:Hf; [exact Hok|].
    destruct (str_in (Quote.status q) ["Draft"; "Sent"]) eqn:E; cbn [negb];
      [|exact Hok].
    apply draft_or_sent in E. cbn [snd].
    apply quotes_ok_update_status with (q := q); auto.
    + now apply fetch_quote_row.
    + destruct E as [-> | ->]; discriminate.
    + discriminate.
  - (* send_quote *)
    clear Hmono. cbn [handle]. unfold send_quote.
    destruct (fetch_quote s quote_id) as [e|q] eqn:Hf; [exact Hok|].
    destruct (Quote.status q =? "Draft")%string eqn:E; cbn [negb];
      [|exact Hok].
    apply String.eqb_eq in E. cbn [snd].
    apply quotes_ok_update_status with (q := q); auto.
    + now apply fetch_quote_row.
    + rewrite E. discriminate.
    + discriminate.
Qed.

(** X20.  In every database the application can reach, each quote has one
    of the four statuses Draft, Sent, Accepted, Declined; a quote has a job
    reference exactly when it is Accepted, and the referenced job
    exists. *)
Theorem reachable_quotes_ok (s : store) (q : Quote.t) :
  reachable s ->
  In q (rows (quotes s)) ->
  str_in (Quote.status q) quote_statuses = true /\
  (Quote.status q = "Accepted" <-> Quote.job_id q <> None) /\
  (forall i, Quote.job_id q = Some i -> job_row s i <> None).
Proof.
  intros [trace <-].
  assert (G : forall s0, store_ok s0 -> quotes_ok s0 ->
                         quotes_ok (run trace s0)).
  { induction trace as [|[now r] rest IH]; intros s0 H1 H2; simpl;
      [exact H2|].
    apply IH; [now apply handle_keeps_store_ok
              | now apply handle_keeps_quotes_ok]. }
  assert (H0 : quotes_ok (run trace empty_store))
    by (apply G; [apply empty_store_ok | intros x []]).
  intros Hin. destruct (H0 q Hin) as [H1 H2]. split; [exact H1|].
  destruct (Quote.job_id q) as [i|].
  - destruct H2 as [H2 H3]. split.
    + split; [discriminate | intros _; exact H2].
    + intros k Hk. injection Hk as <-. exact H3.
  - split; [|discriminate]. split; [contradiction | congruence].
Qed.

End QuoteIntegrity.

Section BillingIntegrity.
Context {RT : Runtime}.

(** A roster row after a request was there before or names a job that
    exists. *)
Lemma handle_roster_effect (now : datetime) (r : request) (s : store)
    (p : Z * Z) :
  In p (job_members (snd (handle now r s))) ->
  In p (job_members s) \/ job_row (snd (handle now r s)) (fst p) <> None.
Proof.
  destruct r; unfold_handlers; repeat break_match; project_store;
    intros Hin;
    try (left; exact Hin);
    try (left; apply filter_In in Hin; tauto).
  - (* create_job *)
    match goal with
    | H : insert_job_members _ _ _ = Some _ |- _ =>
        destruct (insert_job_members_in _ _ _ _ _ H Hin) as [Hp | Hp]
    end; [now left | right].
    rewrite Hp. unfold job_row. project_store.
    match goal with
    | |- context [seq (insert_row Job.id ?mk ?t)] =>
        change (seq (insert_row Job.id mk t)) with (next_rowid Job.id t)
    end.
    now rewrite (select_by_id_inserted Job.id).
  - (* update_job *)
    match goal with
    | H : insert_job_members _ _ _ = Some _ |- _ =>
        destruct (insert_job_members_in _ _ _ _ _ H Hin) as [Hp | Hp]
    end; [left; apply filter_In in Hp; tauto | right].
    rewrite Hp. unfold job_row. project_store.
    match goal with
    | H : fetch_job _ _ = inr _ |- _ => apply fetch_job_row in H;
        unfold job_row in H;
        erewrite (select_by_id_update_same Job.id);
          [discriminate | reflexivity | exact H]
    end.
Qed.

Lemma handle_keeps_job_refs (now : datetime) (r : request) (s : store) :
  job_refs_ok s -> job_refs_ok (snd (handle now r s)).
Proof.
  intros [Hp Hm]. pose proof (handle_keeps_job_row now r s) as Hmono.
  split.
  - intros p Hin.
    destruct (handle_payments_effect now r s)
      as [E | (i & a & m & job & _ & Hf & _ & _ & E)]; rewrite E in Hin.
    + apply Hmono. now apply Hp.
    + unfold insert_row in Hin. cbn [rows] in Hin.
      apply in_app_or in Hin. destruct Hin as [Hin | [<- | []]].
      * apply Hmono. now apply Hp.
      * apply Hmono. cbn [Payment.job_id].
        apply fetch_job_row in Hf. congruence.
  - intros p Hin.
    destruct (handle_roster_effect now r s p Hin) as [H | H]; [|exact H].
    apply Hmono. now apply Hm.
Qed.

Lemma reachable_job_refs (s : store) : reachable s -> job_refs_ok s.
Proof.
  intros [trace <-].
  assert (G : forall s0, job_refs_ok s0 -> job_refs_ok (run trace s0)).
  { induction trace as [|[now r] rest IH]; intros s0 H0; simpl; [exact H0|].
    apply IH. now apply handle_keeps_job_refs. }
  apply G. split; intros p [].
Qed.

(** X21.  In every database the application can reach, every payment and
    every roster row belongs to a job that exists. *)
Theorem reachable_job_refs_ok (s : store) :
  reachable s ->
  (forall p, In p (rows (payments s)) ->
             exists j, job_row s (Payment.job_id p) = Some j) /\
  (forall job_id member_id, In (job_id, member_id) (job_members s) ->
             exists j, job_row s job_id = Some j).
Proof.
  intros Hr. destruct (reachable_job_refs s Hr) as [H1 H2].
  split.
  - intros p Hin. specialize (H1 p Hin).
    destruct (job_row _ (Payment.job_id p)); [eauto | contradiction].
  - intros i m Hin. specialize (H2 _ Hin). cbn [fst] in H2.
    destruct (job_row _ i); [eauto | contradiction].
Qed.

Lemma rows_update_all {A : Type} (P : A -> Prop) (p : A -> bool)
    (f : A -> A) (t : table A) :
  (forall r, In r (rows t) -> P r) ->
  (forall r, P r -> p r = true -> P (f r)) ->
  forall r, In r (rows (update_where p f t)) -> P r.
Proof.
  intros H Hf r Hin. unfold update_where in Hin. cbn [rows] in Hin.
  apply in_map_iff in Hin. destruct Hin as [x [<- Hx]].
  destruct (p x) eqn:E; [apply Hf; auto | auto].
Qed.

Lemma rows_insert_all {A : Type} (P : A -> Prop) (key : A -> Z)
    (mk : Z -> A) (t : table A) :
  (forall r, In r (rows t) -> P r) ->
  P (mk (next_rowid key t)) ->
  forall r, In r (rows (insert_row key mk t)) -> P r.
Proof.
  intros H Hn r Hin. unfold insert_row in Hin. cbn [rows] in Hin.
  apply in_app_or in Hin. destruct Hin as [Hin | [<- | []]]; auto.
Qed.

Lemma invoice_ok_more_payments (pays : list Payment.t) (p : Payment.t)
    (j : Job.t) :
  invoice_ok pays j -> invoice_ok (pays ++ [p]) j.
Proof.
  intros [H1 H2]. split; [exact H1|]. intros Hp.
  destruct (H2 Hp) as [H3 H4]. split; [exact H3|].
  rewrite filter_app. intros E. apply app_eq_nil in E. tauto.
Qed.

Lemma invoice_ok_sent (pays : list Payment.t) (sent_at : string)
    (j : Job.t) :
  invoice_ok pays (Job.set_invoice_sent sent_at j).
Proof.
  split; [right; left; reflexivity | discriminate].
Qed.

Lemma invoice_ok_new (pays : list Payment.t) (j : Job.t) :
  Job.invoice_status j = None -> invoice_ok pays j.
Proof.
  intros H. split; [now left | congruence].
Qed.

(** Every handler keeps the invoice columns consistent with the
    payments. *)
Lemma handle_keeps_invoices_ok (now : datetime) (r : request) (s : store) :
  invoices_ok s -> invoices_ok (snd (handle now r s)).
Proof.
  unfold invoices_ok. intros H.
  destruct r; unfold_handlers; repeat break_match; project_store;
    try exact H;
    try (apply rows_insert_all;
         [exact H | apply invoice_ok_new; reflexivity]);
    try (apply rows_update_all;
         [exact H
         | intros x Hx _; first [exact Hx | apply invoice_ok_sent]]).
  - (* add_payment, the total reaches the cost *)
    apply rows_update_all.
    + intros x Hx. unfold insert_row. cbn [rows].
      apply invoice_ok_more_payments. now apply H.
    + intros x _ Hid. apply Z.eqb_eq in Hid.
      split; [right; right; reflexivity|]. intros _.
      split; [discriminate|].
      cbn [Job.id Job.set_paid]. unfold insert_row. cbn [rows].
      rewrite filter_app. cbn [filter Payment.job_id].
      rewrite Hid, Z.eqb_refl. intros E. apply app_eq_nil in E.
      destruct E as [_ E]. discriminate E.
  - (* add_payment, the total stays below *)
    intros x Hx. unfold insert_row. cbn [rows].
    apply invoice_ok_more_payments. now apply H.
Qed.

(** X22.  In every database the application can reach, the invoice status
    of a job is NULL, Sent or Paid, and a job whose invoice is Paid has a
    payment date and at least one payment row. *)
Theorem reachable_invoices_ok (s : store) (j : Job.t) :
  reachable s ->
  In j (rows (jobs s)) ->
  (Job.invoice_status j = None \/ Job.invoice_status j = Some "Sent" \/
   Job.invoice_status j = Some "Paid") /\
  (Job.invoice_status j = Some "Paid" ->
   Job.paid_at j <> None /\ payments_of s (Job.id j) <> []).
Proof.
  intros [trace <-].
  assert (G : forall s0, invoices_ok s0 -> invoices_ok (run trace s0)).
  { induction trace as [|[now r] rest IH]; intros s0 H0; simpl; [exact H0|].
    apply IH. now apply handle_keeps_invoices_ok. }
  intros Hin. exact (G empty_store (fun x (H : In x []) => match H with end)
                       j Hin).
Qed.

End BillingIntegrity.

Section UnpaidList.
Context {RT : Runtime}.

Lemma is_unpaid_set_paid (paid_at : string) (j : Job.t) :
  is_unpaid (Job.set_paid paid_at j) = false.
Proof.
  unfold is_unpaid. cbn [Job.status Job.invoice_status Job.set_paid].
  now rewrite andb_false_r.
Qed.

Lemma unpaid_after_set_paid (job_id : Z) (paid_at : string)
    (l : list Job.t) :
  filter is_unpaid
    (map (fun j => if Job.id j =? job_id then Job.set_paid paid_at j else j) l)
  = filter (fun j => negb (Job.id j =? job_id)) (filter is_unpaid l).
Proof.
  induction l as [|x l IH]; simpl; [reflexivity|].
  destruct (Job.id x =? job_id) eqn:E.
  - rewrite is_unpaid_set_paid. destruct (is_unpaid x); simpl;
      [now rewrite E|]; exact IH.
  - destruct (is_unpaid x); simpl; [rewrite E; simpl; now rewrite IH|].
    exact IH.
Qed.

(** X23.  The unpaid list of the home page (completed jobs whose invoice
    status is not Paid) follows the payments: a payment that brings the sum
    of the payments of the job to its cost takes exactly this job off the
    list, a payment that leaves that sum below the cost leaves the list as
    it was. *)
Theorem settling_payment_clears_unpaid (now : datetime) (s : store)
    (job_id : Z) (job : Job.t) (amount : real) (method : string) :
  fetch_job s job_id = inr job ->
  Job.status job = "Completed" ->
  str_in method allowed_methods = true ->
  let s' := snd (add_payment now job_id amount method s) in
  (real_ge (real_add (paid_for_job s job_id) amount) (cost_due job) = true ->
     unpaid_rows s'
       = filter (fun j => negb (Job.id j =? job_id)) (unpaid_rows s)) /\
  (real_lt (real_add (paid_for_job s job_id) amount) (cost_due job) = true ->
     unpaid_rows s' = unpaid_rows s).
Proof.
  intros Hf Hst Hm s'. subst s'.
  unfold add_payment. rewrite Hf, Hst, String.eqb_refl. cbn [negb].
  rewrite Hm. cbn [negb]. set (s1 := with_payments _ s).
  assert (Hsum : total_paid s1 job_id
                 = real_add (paid_for_job s job_id) amount).
  { rewrite total_paid_is_sum. unfold paid_for_job, s1. project_store.
    unfold insert_row. cbn [rows]. rewrite sum_paid_snoc.
    cbn [Payment.job_id Payment.amount]. now rewrite Z.eqb_refl. }
  rewrite ge_actual_cost_or_zero, Hsum.
  destruct (real_ge (real_add (paid_for_job s job_id) amount) (cost_due job))
    eqn:Hge; cbn [snd]; split.
  - intros _. unfold unpaid_rows, s1. project_store.
    unfold update_where. cbn [rows]. apply unpaid_after_set_paid.
  - intros Hlt. apply real_lt_not_ge in Hlt. congruence.
  - intros H. congruence.
  - intros _. reflexivity.
Qed.

(** X24.  Sending the invoice of a paid job again puts the job back on the
    unpaid list: after [mark_invoice_sent] on a completed job, the row of
    the job is one of the unpaid rows, whether or not it was Paid. *)
Theorem resend_puts_job_on_unpaid_list (now : datetime) (s : store)
    (job_id : Z) (job : Job.t) :
  fetch_job s job_id = inr job ->
  Job.status job = "Completed" ->
  let s' := snd (mark_invoice_sent now job_id s) in
  exists j',
    job_row s' job_id = Some j' /\
    Job.invoice_status j' = Some "Sent" /\
    In j' (unpaid_rows s').
Proof.
  intros Hf Hst s'. subst s'.
  destruct (mark_invoice_sent_writes now s job_id job Hf Hst) as [_ H].
  eexists. split; [exact H|]. split; [reflexivity|].
  unfold unpaid_rows. apply filter_In. split.
  - apply (select_by_id_in Job.id job_id). exact H.
  - unfold is_unpaid. cbn [Job.status Job.invoice_status Job.set_invoice_sent].
    rewrite Hst. reflexivity.
Qed.

(** The rowid [create_job] will hand out carries no roster row in a
    reachable database. *)
Lemma reachable_roster_fresh (s : store) (p : Z * Z) :
  reachable s -> In p (job_members s) ->
  fst p <> next_rowid Job.id (jobs s).
Proof.
  intros Hr Hin. destruct (reachable_job_refs s Hr) as [_ H].
  specialize (H p Hin).
  destruct (job_row s (fst p)) as [j|] eqn:Hj; [clear H | contradiction].
  apply (select_by_id_in Job.id) in Hj as Hj'.
  apply (next_rowid_fresh Job.id) in Hj'.
  apply job_row_id in Hj. lia.
Qed.

End UnpaidList.

(** ** The further properties on the worked databases *)

Lemma send_quote_transition_witness :
  option_map Quote.status (quote_row (snd (send_quote 1 ex_drafted)) 1)
    = Some "Sent" /\
  send_quote 1 ex_quoted
    = (HTTPException 400 "Only draft quotes can be marked as sent", ex_quoted).
Proof.
  eassert (Hf1 : fetch_quote ex_drafted 1 = inr _) by reflexivity.
  destruct (send_quote_transition ex_drafted 1 _ Hf1) as [T1 _].
  destruct (T1 eq_refl) as [_ [Hrow _]].
  eassert (Hf2 : fetch_quote ex_quoted 1 = inr _) by reflexivity.
  destruct (send_quote_transition ex_quoted 1 _ Hf2) as [_ T2].
  split; [now rewrite Hrow | apply T2; discriminate].
Defined.

Lemma decline_quote_transition_witness :
  option_map Quote.status (quote_row (snd (decline_quote 1 ex_quoted)) 1)
    = Some "Declined" /\
  decline_quote 1 ex_accepted
    = (HTTPException 400 "Quote already accepted or declined", ex_accepted).
Proof.
  eassert (Hf1 : fetch_quote ex_quoted 1 = inr _) by reflexivity.
  destruct (decline_quote_transition ex_quoted 1 _ Hf1) as [T1 _].
  destruct (T1 (or_intror eq_refl)) as [_ [Hrow _]].
  eassert (Hf2 : fetch_quote ex_accepted 1 = inr _) by reflexivity.
  destruct (decline_quote_transition ex_accepted 1 _ Hf2) as [_ T2].
  split; [now rewrite Hrow | apply T2; split; discriminate].
Defined.

Lemma terminal_quote_frozen_witness :
  quote_row (run ex_after_accept_trace ex_accepted) 1
    = quote_row ex_accepted 1 /\
  option_map Job.status (job_row (run ex_after_accept_trace ex_accepted) 1)
    = Some "Completed".
Proof.
  eassert (Hq : quote_row ex_accepted 1 = Some _) by reflexivity.
  split; [|reflexivity].
  rewrite (terminal_quote_frozen ex_after_accept_trace ex_accepted 1 _ Hq
             (or_introl eq_refl)).
  now rewrite Hq.
Defined.

Lemma create_quote_round_trip_witness :
  option_map Quote.description
    (quote_row
       (snd (create_quote ex_now 1 " Plant a tree " 3%Q 80%Q "" ex_scheduled))
       1)
    = Some "Plant a tree" /\
  create_quote ex_now 9 "Plant a tree" 3%Q 80%Q "" ex_scheduled
    = (HTTPException 404 "Client not found", ex_scheduled).
Proof.
  pose proof (create_quote_round_trip ex_now ex_scheduled 1 " Plant a tree "
                3%Q 80%Q "") as T1.
  cbv zeta in T1. destruct T1 as [T1 _].
  eassert (Hc : fetch_client ex_scheduled 1 = inr _) by reflexivity.
  destruct (T1 _ Hc) as [_ [Hf _]]. apply fetch_quote_row in Hf.
  pose proof (create_quote_round_trip ex_now ex_scheduled 9 "Plant a tree"
                3%Q 80%Q "") as T2.
  cbv zeta in T2. destruct T2 as [_ T2].
  split; [|exact (T2 eq_refl)].
  change (next_rowid Quote.id (quotes ex_scheduled)) with 1 in Hf.
  now rewrite Hf.
Defined.

Lemma delete_client_orphans_quote_witness :
  option_map Quote.status (quote_row (snd (delete_client 1 ex_quoted)) 1)
    = Some "Sent" /\
  fst (accept_quote ex_now 1 (snd (delete_client 1 ex_quoted)))
    = HTTPException 404 "Quote not found".
Proof.
  eassert (Hf : fetch_quote ex_quoted 1 = inr _) by reflexivity.
  pose proof (delete_client_orphans_quote ex_now ex_quoted 1 _ Hf) as T.
  cbv zeta in T. destruct T as [_ [Hrow [_ [Ha _]]]].
  { intros j []. }
  split.
  - exact (f_equal (option_map Quote.status) Hrow).
  - exact (f_equal fst Ha).
Defined.

Lemma update_job_replaces_roster_witness :
  (forall m,
     In (1, m)
        (job_members
           (snd (update_job 1 1 "Mow and edge" "2026-03-05T08:00:00" ""
                            (Some 2) (Some [2]) 3%Q 200%Q ex_staffed)))
     <-> In m [2]) /\
  In (1, 1) (job_members ex_staffed) /\
  (In (2, 2)
      (job_members
         (snd (update_job 1 1 "Mow and edge" "2026-03-05T08:00:00" ""
                          (Some 2) (Some [2]) 3%Q 200%Q ex_staffed)))
   <-> In (2, 2) (job_members ex_staffed)).
Proof.
  eassert (Hf : fetch_job ex_staffed 1 = inr _) by reflexivity.
  assert (Hst : "Scheduled" <> "Completed") by discriminate.
  assert (Hnd : NoDup [2]) by (repeat constructor; intros []).
  pose proof (update_job_replaces_roster ex_staffed 1 1 _ "Mow and edge"
                "2026-03-05T08:00:00" "" (Some 2) (Some [2]) 3%Q 200%Q
                "2026-03-05T08:00:00" Hf Hst eq_refl Hnd) as T.
  cbv zeta in T. destruct T as [_ [H1 [H2 _]]].
  split; [exact H1|]. split; [left; reflexivity|]. apply H2. discriminate.
Defined.

Lemma update_job_duplicate_rolls_back_witness :
  update_job 1 1 "Mow and edge" "2026-03-05T08:00:00" "" None
             (Some [2; 1; 2]) 3%Q 200%Q ex_staffed
    = (Uncaught "sqlite3.IntegrityError", ex_staffed).
Proof.
  eassert (Hf : fetch_job ex_staffed 1 = inr _) by reflexivity.
  assert (Hst : "Scheduled" <> "Completed") by discriminate.
  assert (Hnd : ~ NoDup [2; 1; 2]).
  { intros H. inversion H as [|? ? Hn _]. apply Hn. right. now left. }
  exact (update_job_duplicate_rolls_back ex_staffed 1 1 _ "Mow and edge"
           "2026-03-05T08:00:00" "" None (Some [2; 1; 2]) 3%Q 200%Q
           "2026-03-05T08:00:00" Hf Hst eq_refl Hnd).
Defined.

Lemma create_job_duplicate_keeps_job_witness :
  fst (create_job 1 "Weed the beds" "2026-03-07T08:00:00" "" None
                  (Some [1; 1]) 1%Q 40%Q ex_staffed)
    = Uncaught "sqlite3.IntegrityError" /\
  option_map Job.description
    (job_row (snd (create_job 1 "Weed the beds" "2026-03-07T08:00:00" ""
                              None (Some [1; 1]) 1%Q 40%Q ex_staffed)) 3)
    = Some "Weed the beds" /\
  job_members
    (snd (create_job 1 "Weed the beds" "2026-03-07T08:00:00" "" None
                     (Some [1; 1]) 1%Q 40%Q ex_staffed))
    = job_members ex_staffed.
Proof.
  assert (Hnd : ~ NoDup [1; 1]).
  { intros H. inversion H as [|? ? Hn _]. apply Hn. now left. }
  pose proof (create_job_duplicate_keeps_job ex_staffed 1 "Weed the beds"
                "2026-03-07T08:00:00" "" None (Some [1; 1]) 1%Q 40%Q
                "2026-03-07T08:00:00" eq_refl Hnd) as T.
  cbv zeta in T. destruct T as [H1 [_ [H2 _]]].
  split; [exact H1|]. split; [reflexivity | exact H2].
Defined.

Lemma create_job_stores_witness :
  (forall m,
     In (3, m)
        (job_members
           (snd (create_job 1 "Weed the beds" "2026-03-07T08:00:00" ""
                            (Some 0) (Some [2; 1]) 1%Q 40%Q ex_staffed)))
     <-> In m [2; 1]) /\
  option_map Job.crew_id
    (job_row (snd (create_job 1 "Weed the beds" "2026-03-07T08:00:00" ""
                              (Some 0) (Some [2; 1]) 1%Q 40%Q ex_staffed)) 3)
    = Some None.
Proof.
  assert (Hnd : NoDup [2; 1]).
  { repeat constructor; simpl; intuition discriminate. }
  pose proof (create_job_stores ex_staffed 1 "Weed the beds"
                "2026-03-07T08:00:00" "" (Some 0) (Some [2; 1]) 1%Q 40%Q
                "2026-03-07T08:00:00" eq_refl Hnd) as T.
  cbv zeta in T. destruct T as [_ [_ [_ [H1 [H2 _]]]]].
  { intros p Hin. simpl in Hin.
    repeat (destruct Hin as [<- | Hin]; [discriminate|]). contradiction. }
  split; [exact H2 | exact (f_equal (option_map Job.crew_id) H1)].
Defined.

Lemma notify_customer_overwrites_witness :
  option_map Job.on_my_way_sent_at
    (job_row
       (snd (notify_customer "2026-03-03T07:45:00" 1
               (snd (notify_customer ex_now 1 ex_completed)))) 1)
    = Some (Some "2026-03-03T07:45:00Z").
Proof.
  eassert (Hf : fetch_job ex_completed 1 = inr _) by reflexivity.
  destruct (notify_customer_overwrites ex_now "2026-03-03T07:45:00"
              ex_completed 1 _ Hf) as [_ H].
  rewrite H. reflexivity.
Defined.

Lemma mark_invoice_sent_overwrites_witness :
  option_map Job.invoice_sent_at
    (job_row
       (snd (mark_invoice_sent "2026-03-09T10:00:00" 1
               (snd (mark_invoice_sent ex_now 1 ex_completed)))) 1)
    = Some (Some "2026-03-09T10:00:00Z").
Proof.
  eassert (Hf : fetch_job ex_completed 1 = inr _) by reflexivity.
  destruct (mark_invoice_sent_overwrites ex_now "2026-03-09T10:00:00"
              ex_completed 1 _ Hf eq_refl) as [_ [H _]].
  exact (f_equal (option_map Job.invoice_sent_at) H).
Defined.

Lemma status_update_lifts_edit_lock_witness :
  fst (update_job 1 1 "Mow and edge" "2026-03-05T08:00:00" "" None None
                  3%Q 200%Q ex_completed)
    = HTTPException 400 "Cannot edit a completed job" /\
  fst (update_job 1 1 "Mow and edge" "2026-03-05T08:00:00" "" None None
                  3%Q 200%Q (snd (update_job_status 1 "In progress"
                                                    ex_completed)))
    = RedirectResponse "/jobs/1".
Proof.
  eassert (Hf : fetch_job ex_completed 1 = inr _) by reflexivity.
  assert (Hne : "In progress" <> "Completed") by discriminate.
  pose proof (status_update_lifts_edit_lock ex_completed 1 1 _ "In progress"
                "Mow and edge" "2026-03-05T08:00:00" "" None None 3%Q 200%Q
                "2026-03-05T08:00:00" Hf eq_refl eq_refl Hne eq_refl
                (NoDup_nil Z)) as T.
  cbv zeta in T. destruct T as [_ [_ [_ [_ H]]]].
  split; [reflexivity | exact H].
Defined.

Lemma toggle_task_flips_witness :
  option_map Task.completed
    (task_row (snd (toggle_task 1 ex_tasked)) 1) = Some 1 /\
  task_row (snd (toggle_task 1 (snd (toggle_task 1 ex_tasked)))) 1
    = task_row ex_tasked 1 /\
  toggle_task 5 ex_tasked = (HTTPException 404 "Task not found", ex_tasked).
Proof.
  destruct (toggle_task_flips ex_tasked 1) as [T _].
  eassert (Ht : task_row ex_tasked 1 = Some _) by reflexivity.
  destruct (T _ Ht (or_introl eq_refl)) as [_ [H1 H2]].
  destruct (toggle_task_flips ex_tasked 5) as [_ T5].
  split; [exact (f_equal (option_map Task.completed) H1)|].
  split; [now rewrite H2, Ht | exact (T5 eq_refl)].
Defined.

Lemma delete_crew_nulls_references_witness :
  map Job.crew_id (rows (jobs (snd (delete_crew 1 ex_staffed))))
    = [None; Some 2] /\
  map Job.crew_id (rows (jobs ex_staffed)) = [Some 1; Some 2] /\
  select_by_id Crew.id 1 (crews (snd (delete_crew 1 ex_staffed))) = None.
Proof.
  eassert (Hf : fetch_crew ex_staffed 1 = inr _) by reflexivity.
  pose proof (delete_crew_nulls_references ex_staffed 1 _ Hf) as T.
  cbv zeta in T. destruct T as [_ [H1 [_ [H2 _]]]].
  split; [now rewrite H2 | split; [reflexivity | exact H1]].
Defined.

Lemma delete_member_removes_roster_rows_witness :
  job_members (snd (delete_member 2 ex_staffed)) = [(1, 1)] /\
  job_members ex_staffed = [(1, 1); (1, 2); (2, 2)] /\
  jobs (snd (delete_member 2 ex_staffed)) = jobs ex_staffed.
Proof.
  eassert (Hf : fetch_member ex_staffed 2 = inr _) by reflexivity.
  pose proof (delete_member_removes_roster_rows ex_staffed 2 _ Hf) as T.
  cbv zeta in T. destruct T as [_ [_ [_ [_ [H _]]]]].
  split; [reflexivity | split; [reflexivity | exact H]].
Defined.

Lemma client_id_not_reused_witness :
  map Client.id
    (rows (clients
             (snd (create_client "Dee" "" "" ""
                     (snd (delete_client 1 ex_quoted)))))) = [2] /\
  fetch_client
    (snd (create_client "Dee" "" "" "" (snd (delete_client 1 ex_quoted)))) 1
    = inl (HTTPException 404 "Client not found").
Proof.
  eassert (Hf : fetch_client ex_quoted 1 = inr _) by reflexivity.
  assert (Hok : table_ok Client.id (clients ex_quoted)).
  { split; [repeat constructor; intros [] |].
    intros r [<- | []]. change (0 < 1 <= 1). lia. }
  pose proof (client_id_not_reused ex_quoted 1 _ "Dee" "" "" "" Hok Hf) as T.
  cbv zeta in T. destruct T as [_ [_ H]].
  { intros j []. }
  split; [reflexivity | exact H].
Defined.

Lemma ex_staffed_reachable : reachable ex_staffed.
Proof. now exists ex_staffed_trace. Defined.

Lemma ex_paid_reachable : reachable ex_paid.
Proof. now exists ex_paid_trace. Defined.

Lemma reachable_store_ok_witness :
  NoDup (map Job.id (rows (jobs ex_staffed))) /\ NoDup (job_members ex_staffed).
Proof.
  destruct (reachable_store_ok ex_staffed ex_staffed_reachable)
    as (_ & _ & _ & [H _] & _ & _ & _ & H8).
  now split.
Defined.

Lemma jobs_never_deleted_witness :
  exists j',
    job_row (run [(ex_now, DeleteCrew 1); (ex_now, DeleteMember 1);
                  (ex_now, DeleteClient 1)] ex_staffed) 2 = Some j' /\
    Job.id j' = 2.
Proof.
  eassert (Hj : job_row ex_staffed 2 = Some _) by reflexivity.
  exact (proj1 (jobs_never_deleted
                  [(ex_now, DeleteCrew 1); (ex_now, DeleteMember 1);
                   (ex_now, DeleteClient 1)] ex_staffed 2 _ Hj)).
Defined.

Lemma reachable_quotes_ok_witness :
  exists q,
    In q (rows (quotes (run ex_after_accept_trace ex_accepted))) /\
    Quote.job_id q = Some 1 /\
    str_in (Quote.status q) quote_statuses = true /\
    job_row (run ex_after_accept_trace ex_accepted) 1 <> None.
Proof.
  assert (Hr : reachable (run ex_after_accept_trace ex_accepted)).
  { exists ([(ex_now, ex_client);
             (ex_now, @CreateQuote QRuntime 1 "Trim the hedge" 2%Q 100%Q "");
             (ex_now, SendQuote 1); (ex_now, AcceptQuote 1)]
            ++ ex_after_accept_trace).
    reflexivity. }
  eassert (Hin : In _ (rows (quotes (run ex_after_accept_trace ex_accepted))))
    by (left; reflexivity).
  destruct (reachable_quotes_ok _ _ Hr Hin) as [H1 [_ H3]].
  eexists. split; [exact Hin|]. split; [reflexivity|].
  split; [exact H1 | exact (H3 1 eq_refl)].
Defined.

Lemma reachable_job_refs_ok_witness :
  (exists j, job_row ex_paid 1 = Some j) /\
  (exists j, job_row ex_staffed 2 = Some j).
Proof.
  destruct (reachable_job_refs_ok ex_paid ex_paid_reachable) as [H1 _].
  destruct (reachable_job_refs_ok ex_staffed ex_staffed_reachable)
    as [_ H2].
  split.
  - eassert (Hin : In _ (rows (payments ex_paid))) by (left; reflexivity).
    exact (H1 _ Hin).
  - apply (H2 2 2). right. right. left. reflexivity.
Defined.

Lemma reachable_invoices_ok_witness :
  exists j,
    In j (rows (jobs ex_paid)) /\
    Job.invoice_status j = Some "Paid" /\
    Job.paid_at j <> None /\ payments_of ex_paid (Job.id j) <> [].
Proof.
  eassert (Hj : job_row ex_paid 1 = Some _) by reflexivity.
  apply (select_by_id_in Job.id) in Hj.
  eexists. split; [exact Hj|]. split; [reflexivity|].
  exact (proj2 (reachable_invoices_ok ex_paid _ ex_paid_reachable Hj)
               eq_refl).
Defined.

Lemma settling_payment_clears_unpaid_witness :
  map Job.id (unpaid_rows ex_part_paid) = [1] /\
  unpaid_rows ex_paid = [].
Proof.
  eassert (Hf : fetch_job ex_part_paid 1 = inr _) by reflexivity.
  pose proof (settling_payment_clears_unpaid ex_now ex_part_paid 1 _ 50%Q
                "Card" Hf eq_refl eq_refl) as T.
  cbv zeta in T. destruct T as [T _].
  split; [reflexivity|].
  change ex_paid with (snd (add_payment ex_now 1 50%Q "Card" ex_part_paid)).
  rewrite (T eq_refl). reflexivity.
Defined.

Lemma resend_puts_job_on_unpaid_list_witness :
  unpaid_rows ex_paid = [] /\
  map Job.id (unpaid_rows (snd (mark_invoice_sent ex_now 1 ex_paid))) = [1].
Proof.
  eassert (Hf : fetch_job ex_paid 1 = inr _) by reflexivity.
  pose proof (resend_puts_job_on_unpaid_list ex_now ex_paid 1 _ Hf eq_refl)
    as T.
  cbv zeta in T. destruct T as [j' [_ [_ Hin]]].
  split; reflexivity.
Defined.
